(** * Inbox Zero Orchestrator: the tools, the body reader and the report
      extraction of [app.py], embedded in Rocq.

    Python [str] values are sequences of Unicode code points, so that
    [str.strip] and [str.startswith] mean here what they mean in Python.
    The Gmail service, the [email], [base64] and [bs4] libraries are external:
    the Gmail service is a record of operations over an abstract world, each
    of which may raise; the library calls are the fields of the class
    [PyLibs]. Arguments have the types of the source's annotations.
    [try ... except Exception] is the handler [try_except]; the exceptions of
    the model are the instances of Python's [Exception]. *)

From Stdlib Require Import NArith List String Ascii Bool DecimalNat.
From stdpp Require Import base option list gmap.
Import ListNotations.

Set Warnings "-clear-no-such-hyp".

Local Open Scope N_scope.

(* ------------------------------------------------------------------ *)
(** ** Python strings *)

Module PyStr.

(** A [str]: its code points, in order. *)
Abbreviation str := (list N).

(** An ASCII literal of the source, as a [str]. *)
Definition lit (s : string) : str :=
  List.map N_of_ascii (list_ascii_of_string s).

(** [str.isspace] on one code point (the Unicode White_Space characters
    plus the four separators U+001C..U+001F, as CPython has it). *)
Definition isspace (c : N) : bool :=
  ((9 <=? c) && (c <=? 13)) || ((28 <=? c) && (c <=? 32))
  || (c =? 133) || (c =? 160) || (c =? 5760)
  || ((8192 <=? c) && (c <=? 8202))
  || (c =? 8232) || (c =? 8233) || (c =? 8239) || (c =? 8287)
  || (c =? 12288).

Fixpoint lstrip (s : str) : str :=
  match s with
  | c :: s' => if isspace c then lstrip s' else s
  | [] => []
  end.

Definition rstrip (s : str) : str := rev (lstrip (rev s)).

(** [s.strip()] *)
Definition strip (s : str) : str := rstrip (lstrip s).

(** [s.startswith(p)] *)
Fixpoint startswith (s p : str) {struct p} : bool :=
  match p, s with
  | [], _ => true
  | _ :: _, [] => false
  | a :: p', b :: s' => (a =? b) && startswith s' p'
  end.

(** The head of a string is not a space. *)
Definition clean_head (s : str) : Prop :=
  match s with [] => True | c :: _ => isspace c = false end.

(** [s == t] *)
Definition str_eqb (s t : str) : bool := bool_decide (s = t).

(** Truth value of a [str]: the empty string is false. *)
Definition truthy (s : str) : bool :=
  match s with [] => false | _ :: _ => true end.

(** [p in s] (substring). *)
Fixpoint contains (s p : str) : bool :=
  startswith s p || match s with [] => false | _ :: s' => contains s' p end.

End PyStr.
Import PyStr.

(* ------------------------------------------------------------------ *)
(** ** Exceptions and the monad of world-changing, fallible calls *)

(** The exceptions the modelled code meets, all instances of [Exception]:
    a missing dict key, and any error of the gateway or of a library, which
    carries its description. *)
Inductive exn :=
| KeyError (key : str)
| Error (descr : str).

(** [str(e)]: a [KeyError] prints the [repr] of its key. *)
Definition str_of_exn (e : exn) : str :=
  match e with
  | KeyError k => lit "'" ++ k ++ lit "'"
  | Error d => d
  end.

Inductive result (A : Type) :=
| Ret (a : A)
| Raise (e : exn).
Arguments Ret {A} a.
Arguments Raise {A} e.

(** A computation over a world [W]: it returns or raises, and leaves a world. *)
Definition M (W A : Type) : Type := W -> result A * W.

Definition ret {W A} (a : A) : M W A := fun w => (Ret a, w).

Definition bind {W A B} (m : M W A) (k : A -> M W B) : M W B :=
  fun w => match m w with
           | (Ret a, w') => k a w'
           | (Raise e, w') => (Raise e, w')
           end.

(** A pure step that may raise. *)
Definition lift {W A} (r : result A) : M W A := fun w => (r, w).

(** [try: m  except Exception as e: h e]. What [m] did to the world before
    it raised stays done. *)
Definition try_except {W A} (m : M W A) (h : exn -> M W A) : M W A :=
  fun w => match m w with
           | (Ret a, w') => (Ret a, w')
           | (Raise e, w') => h e w'
           end.

#[export] Instance M_ret {W} : MRet (M W) := fun A a => ret a.
#[export] Instance M_bind {W} : MBind (M W) := fun A B k m => bind m k.

#[export] Instance result_ret : MRet result := fun A a => Ret a.
#[export] Instance result_bind : MBind result :=
  fun A B k r => match r with Ret a => k a | Raise e => Raise e end.

(** [d[key]] on a dict whose key may be absent. *)
Definition subscript {A} (key : string) (v : option A) : result A :=
  match v with
  | Some a => Ret a
  | None => Raise (KeyError (lit key))
  end.

(* ------------------------------------------------------------------ *)
(** ** The Gmail resources the code reads and the requests it sends *)

(** [part['body']]: the [data] key is absent for an attachment or a
    container part. *)
Record MessagePartBody := { data : option str }.

(** An element of [payload['parts']]. *)
Record MessagePart := { mimeType : str; body : MessagePartBody }.

(** [msg['payload']]: [parts] is what [payload.get('parts')] returns,
    [None] when the key is absent. *)
Record Payload := { parts : option (list MessagePart);
                    payload_body : MessagePartBody }.

Record GmailMessage := { payload : Payload }.

(** The [body] argument of [users().messages().modify]; a key the caller
    leaves out is the empty list. *)
Record ModifyBody := { addLabelIds : list str; removeLabelIds : list str }.

(** The [body] argument of [users().drafts().create]:
    [{'message': {'raw': raw}}]. *)
Record DraftBody := { raw : str }.

(** The draft resource of the response; [draft['id']]. *)
Record Draft := { draft_id : option str }.

(** The module-level [service], as far as the modelled functions use it.
    Each operation is the whole chain up to [.execute()]. *)
Record GmailService (W : Type) := {
  messages_get : str -> str -> M W GmailMessage;
  messages_modify : str -> ModifyBody -> M W unit;
  drafts_create : DraftBody -> M W Draft
}.
Arguments messages_get {W}.
Arguments messages_modify {W}.
Arguments drafts_create {W}.

(** The module's global names that a function body can read. *)
Record Globals (W : Type) := {
  service : GmailService W;
  CURRENT_EMAIL_ID : option str
}.
Arguments service {W}.
Arguments CURRENT_EMAIL_ID {W}.

(** The dict every tool returns: [{"status": ..., "message": ...}]. *)
Record ToolResult := { status : str; message : str }.

(** [bytes] values. *)
Abbreviation bytes := (list Byte.byte).

(* ------------------------------------------------------------------ *)
(** ** Section 1 and 2 of [app.py]: the body reader and the tools *)

(** The library calls of the modelled functions. *)
Class PyLibs := {
  (** [EmailMessage()], [set_content(body)], [['To'] = recipient],
      [['Subject'] = subject] and [as_bytes()], in the argument order
      body, recipient, subject: the [email] library rejects some header
      values. *)
  EmailMessage_as_bytes : str -> str -> str -> result bytes;
  (** [base64.urlsafe_b64encode(b).decode()] *)
  urlsafe_b64encode : bytes -> str;
  (** [base64.urlsafe_b64decode(data)] *)
  urlsafe_b64decode : str -> result bytes;
  (** [b.decode()] *)
  bytes_decode : bytes -> result str;
  (** [BeautifulSoup(text, "html.parser").get_text(separator='\n')] *)
  soup_get_text : str -> result str
}.

Section App.

Context {W : Type} `{PyLibs}.

Definition text_plain : str := lit "text/plain".
Definition text_html : str := lit "text/html".

(** Truth value of the local [data], which starts as [None]. *)
Definition truthy_opt (d : option str) : bool :=
  match d with Some s => truthy s | None => false end.

(** [for part in parts: if part['mimeType'] == mime:
       data = part['body']['data']; break]
    from the current value [d0] of [data] to its value after the loop. *)
Fixpoint scan_parts (mime : str) (ps : list MessagePart) (d0 : option str)
  : result (option str) :=
  match ps with
  | [] => Ret d0
  | part :: rest =>
      if str_eqb (mimeType part) mime
      then d ← subscript "data" (data (body part)); Ret (Some d)
      else scan_parts mime rest d0
  end.

(** Lines 83 to 98: the value of [data] when the decoding starts. *)
Definition select_data (payload : Payload) : result (option str) :=
  match parts payload with
  | Some ((_ :: _) as ps) =>
      d ← scan_parts text_plain ps None;
      if negb (truthy_opt d) then scan_parts text_html ps d else Ret d
  | _ =>
      d ← subscript "data" (data (payload_body payload)); Ret (Some d)
  end.

Definition no_readable_content : str := lit "(No readable content found)".

Definition error_reading_body (e : exn) : str :=
  lit "Error reading email body: " ++ str_of_exn e.

(** Lines 101 to 104, on a [data] that is true: decode, parse, strip. *)
Definition decode_data (d : str) : result str :=
  raw_bytes ← urlsafe_b64decode d;
  text ← bytes_decode raw_bytes;
  shown ← soup_get_text text;
  Ret (strip shown).

(** The [try] block of [get_email_body]: [Some s] when it returns [s],
    [None] when control leaves the block without a [return]. *)
Definition get_email_body_try (g : Globals W) (msg_id : str)
  : M W (option str) :=
  msg ← messages_get (service g) msg_id (lit "full");
  d ← lift (select_data (payload msg));
  match d with
  | Some d' =>
      if truthy d'
      then shown ← lift (decode_data d'); mret (Some shown)
      else mret None
  | None => mret None
  end.

Definition get_email_body (g : Globals W) (msg_id : str) : M W str :=
  r ← try_except (get_email_body_try g msg_id)
                 (fun e => mret (Some (error_reading_body e)));
  mret (default no_readable_content r).

Definition success : str := lit "success".
Definition error : str := lit "error".

(** [{"status": "error", "message": str(e)}], the handler of each tool. *)
Definition error_result (e : exn) : ToolResult :=
  {| status := error; message := str_of_exn e |}.

Definition draft_email (g : Globals W) (recipient subject body : str)
  : M W ToolResult :=
  try_except
    (message_bytes ← lift (EmailMessage_as_bytes body recipient subject);
     let encoded_message := urlsafe_b64encode message_bytes in
     let create_message := {| raw := encoded_message |} in
     draft ← drafts_create (service g) create_message;
     id ← lift (subscript "id" (draft_id draft));
     mret {| status := success;
             message := [0x2705] ++ lit " Real draft created! ID: " ++ id |})
    (fun e => mret (error_result e)).

Definition archive_email_by_id (g : Globals W) (email_id : str)
  : M W ToolResult :=
  if negb (truthy email_id)
  then mret {| status := error;
               message := lit "Email ID not provided for archiving." |}
  else
    try_except
      (_ ← messages_modify (service g) email_id
             {| addLabelIds := []; removeLabelIds := [lit "INBOX"] |};
       mret {| status := success;
               message := [0x1F4E6] ++ lit " Email " ++ email_id
                          ++ lit " has been really archived." |})
      (fun e => mret (error_result e)).

Definition delete_email_by_id (g : Globals W) (email_id : str)
  : M W ToolResult :=
  if negb (truthy email_id)
  then mret {| status := error;
               message := lit "Email ID not provided for deleting." |}
  else
    try_except
      (_ ← messages_modify (service g) email_id
             {| addLabelIds := [lit "TRASH"]; removeLabelIds := [] |};
       mret {| status := success;
               message := [0x1F5D1; 0xFE0F] ++ lit " Email " ++ email_id
                          ++ lit " moved to trash." |})
      (fun e => mret (error_result e)).

Definition create_reminder (g : Globals W) (task date : str)
  : M W ToolResult :=
  mret {| status := success;
          message := [0x23F0] ++ lit " Reminder set: " ++ task
                     ++ lit " on " ++ date |}.

(** The request of [archive_email_by_id] and that of [delete_email_by_id]. *)
Definition archive_request : ModifyBody :=
  {| addLabelIds := []; removeLabelIds := [lit "INBOX"] |}.
Definition delete_request : ModifyBody :=
  {| addLabelIds := [lit "TRASH"]; removeLabelIds := [] |}.

(** A tool result: the call returned, with one of the two statuses. *)
Definition returns_tool_result (out : result ToolResult * W) : Prop :=
  exists r w', out = (Ret r, w') /\ (status r = success \/ status r = error).

(** [REAL_TOOLS]: a call of one of the four tools with its arguments, as
    the agent runtime issues it. *)
Inductive ToolInvocation :=
| call_draft_email (recipient subject body : str)
| call_archive_email_by_id (email_id : str)
| call_delete_email_by_id (email_id : str)
| call_create_reminder (task date : str).

Definition invoke (g : Globals W) (c : ToolInvocation) : M W ToolResult :=
  match c with
  | call_draft_email recipient subject body =>
      draft_email g recipient subject body
  | call_archive_email_by_id email_id => archive_email_by_id g email_id
  | call_delete_email_by_id email_id => delete_email_by_id g email_id
  | call_create_reminder task date => create_reminder g task date
  end.

End App.

(* ------------------------------------------------------------------ *)
(** ** Section 4 of [app.py]: the handler of the process button *)

(** An element of [event.tool_calls]; [tc_args] is [tool_call.args] as the
    f-string prints it. *)
Record ToolCall := { tc_name : str; tc_args : str }.

(** [event.message]; [msg_text] is [None] when the object has no attribute
    [text]. *)
Record AgentMessage := { msg_text : option str }.

(** An event of [response_events]. A field is [None] when the event lacks
    the attribute or holds [None] there. *)
Record Event := {
  ev_tool_calls : option (list ToolCall);
  ev_message : option AgentMessage
}.

(** What the handler does to the page, in order. *)
Inductive ui :=
| st_write (line : str)
| status_update (label : str)
| refresh_inbox      (* emails = fetch_inbox(); selected_email_index = 0 *)
| st_rerun           (* st.experimental_rerun(): the script stops here *)
| st_subheader (title : str)
| st_success (body : str)
| st_info (body : str).

Definition echo_tool_call (tool_call : ToolCall) : ui :=
  st_write ([0x1F6E0; 0xFE0F] ++ lit " **Executing Real Tool:** `"
            ++ tc_name tool_call ++ lit "` with args: `"
            ++ tc_args tool_call ++ lit "`").

(** The variables the loop over [response_events] updates. *)
Record LoopState := {
  written : list ui;
  action_taken : bool;
  potential_agent_messages : list str
}.

Definition loop_start : LoopState :=
  {| written := []; action_taken := false; potential_agent_messages := [] |}.

(** One turn of [for event in response_events]. *)
Definition loop_body (st : LoopState) (event : Event) : LoopState :=
  let st1 :=
    match ev_tool_calls event with
    | Some ((_ :: _) as calls) =>
        {| written := written st ++ List.map echo_tool_call calls;
           action_taken := true;
           potential_agent_messages := potential_agent_messages st |}
    | _ => st
    end in
  match ev_message event with
  | Some m =>
      match msg_text m with
      | Some message_text =>
          if truthy (strip message_text)
          then {| written := written st1;
                  action_taken := action_taken st1;
                  potential_agent_messages :=
                    potential_agent_messages st1 ++ [strip message_text] |}
          else st1
      | None => st1
      end
  | None => st1
  end.

(** The lines one event adds to the page. *)
Definition echoes (event : Event) : list ui :=
  match ev_tool_calls event with
  | Some calls => List.map echo_tool_call calls
  | None => []
  end.

Definition run_events (response_events : list Event) : LoopState :=
  fold_left loop_body response_events loop_start.

Definition tool_code_prefix : str := lit "tool_code:".
Definition print_prefix : str := lit "print(".

(** [for msg in potential_agent_messages: if ...: first_agent_dialogue = msg;
    break], from the initial [""]. *)
Fixpoint first_agent_dialogue (msgs : list str) : str :=
  match msgs with
  | [] => []
  | msg :: rest =>
      if negb (startswith msg tool_code_prefix)
         && negb (startswith msg print_prefix)
         && truthy (strip msg)
      then msg
      else first_agent_dialogue rest
  end.

(** The report the handler extracts from the events. *)
Definition extract_report (response_events : list Event) : str :=
  first_agent_dialogue (potential_agent_messages (run_events response_events)).

Definition fallback_text : str := lit "Look at the terminal for the output".

(** Lines 325 to 328. *)
Definition final_report_display (report : str) : ui :=
  if truthy report then st_success report else st_info fallback_text.

(** The handler from the engine's answer on: what it shows. After a tool
    call it refreshes the inbox and reruns the script, and the lines after
    the rerun are not reached. *)
Definition process_click (response_events : list Event) : list ui :=
  let st := run_events response_events in
  let report := first_agent_dialogue (potential_agent_messages st) in
  [st_write ([0x1F9E0] ++ lit " Analyzing content and deciding actions...")]
  ++ written st
  ++ (if action_taken st
      then [status_update ([0x2705] ++ lit " Real Actions Executed!");
            refresh_inbox; st_rerun]
      else [status_update (lit "Finished analyzing. No actions taken.");
            st_subheader (lit "Agent Final Report");
            final_report_display report]).

(* ------------------------------------------------------------------ *)
(** ** The selection rule of the specification, section 4.3 *)

(** The text of an event, when it has one. *)
Definition event_text (e : Event) : option str :=
  m ← ev_message e; msg_text m.

(** The textual events, in production order. *)
Definition textual_events (events : list Event) : list str :=
  omap event_text events.

(** Empty or whitespace only. *)
Definition blank (t : str) : bool := negb (truthy (strip t)).

(** Looks like an echoed tool invocation. *)
Definition looks_like_tool_echo (t : str) : bool :=
  startswith (strip t) tool_code_prefix || startswith (strip t) print_prefix.

Definition nonblank (t : str) : bool := negb (blank t).

Definition qualifies (t : str) : bool :=
  negb (blank t) && negb (looks_like_tool_echo t).

(** Scan in production order, discard the blank and the echoes, take the
    first that remains (trimmed); [None] when no candidate qualifies. *)
Definition spec_final_report (events : list Event) : option str :=
  head (List.map strip (List.filter qualifies (textual_events events))).

(** An event that carries tool calls. *)
Definition is_tool_call_event (e : Event) : bool :=
  match ev_tool_calls e with Some (_ :: _) => true | _ => false end.

(** The report [r] is non-empty and is the last item of the sequence: the
    text of its last event, so that it comes after every tool-call event
    and nothing follows it. *)
Definition report_is_terminal (events : list Event) (r : str) : Prop :=
  r ≠ [] ∧ ∃ pre e t, events = pre ++ [e] ∧ event_text e = Some t
                       ∧ strip t = r.

(* ------------------------------------------------------------------ *)
(** ** The choice of the part to decode, stated by preference *)

Definition is_mime (mime : str) (p : MessagePart) : bool :=
  str_eqb (mimeType p) mime.

(** [d['data']] of a part body, as the new value of [data]. *)
Definition data_of (b : MessagePartBody) : result (option str) :=
  d ← subscript "data" (data b); Ret (Some d).

(** The data of the first [text/html] part, and [d0] when there is none. *)
Definition html_or (ps : list MessagePart) (d0 : option str)
  : result (option str) :=
  match List.find (is_mime text_html) ps with
  | Some q => data_of (body q)
  | None => Ret d0
  end.

(** With parts: the data of the first [text/plain] part when that data is
    not empty; the first [text/html] part when there is no [text/plain]
    part or when the data of the first one is empty. Without parts: the
    data of the top-level body. *)
Definition select_data_by_preference (payload : Payload)
  : result (option str) :=
  match parts payload with
  | Some ((_ :: _) as ps) =>
      match List.find (is_mime text_plain) ps with
      | Some p =>
          match data (body p) with
          | Some d => if truthy d then Ret (Some d) else html_or ps (Some d)
          | None => Raise (KeyError (lit "data"))
          end
      | None => html_or ps None
      end
  | _ => data_of (payload_body payload)
  end.

(* ------------------------------------------------------------------ *)
(** ** A reference mailbox behind the gateway *)

(** A message of the mailbox: its labels and its resource. *)
Record StoredMessage := {
  labelIds : gset (list N);
  resource : GmailMessage
}.

Record Mailbox := {
  stored : gmap (list N) StoredMessage;
  drafts : list DraftBody
}.

Definition not_found : exn := Error (lit "Requested entity was not found.").

Definition relabel (b : ModifyBody) (m : StoredMessage) : StoredMessage :=
  {| labelIds := (labelIds m ∪ list_to_set (addLabelIds b))
                 ∖ list_to_set (removeLabelIds b);
     resource := resource m |}.

(** Modelled from the spec: the MailboxGateway is an external collaborator
    (the Gmail API behind [service]) and is not part of the repository. Its
    [relabel(id, add, remove)] adds and removes labels of one message and
    touches nothing else, [get] reads a message, [create_draft] stores a
    draft and returns its id; a call on an unknown id fails. *)
Definition reference_service : GmailService Mailbox :=
  {| messages_get := fun id _ mb =>
       match stored mb !! id with
       | Some m => (Ret (resource m), mb)
       | None => (Raise not_found, mb)
       end;
     messages_modify := fun id b mb =>
       match stored mb !! id with
       | Some m => (Ret (), {| stored := <[id := relabel b m]> (stored mb);
                               drafts := drafts mb |})
       | None => (Raise not_found, mb)
       end;
     drafts_create := fun b mb =>
       (Ret {| draft_id := Some (lit "r" ++ repeat 49 (length (drafts mb))) |},
        {| stored := stored mb; drafts := drafts mb ++ [b] |}) |}.

Definition INBOX : list N := lit "INBOX".
Definition TRASH : list N := lit "TRASH".

(** The requests that take an archive and a delete of [m] back. *)
Definition undo_archive (m : StoredMessage) : ModifyBody :=
  {| addLabelIds := if decide (INBOX ∈ labelIds m) then [INBOX] else [];
     removeLabelIds := [] |}.
Definition undo_delete (m : StoredMessage) : ModifyBody :=
  {| addLabelIds := [];
     removeLabelIds := if decide (TRASH ∈ labelIds m) then [] else [TRASH] |}.

(* ------------------------------------------------------------------ *)
(** ** Section 1 of [app.py], continued: the inbox listing *)

(** A header of [msg_detail['payload']['headers']]. *)
Record Header := { h_name : str; h_value : str }.

(** An element of [results['messages']]; [msg['id']]. *)
Record MessageRef := { ref_id : str }.

(** The response of [messages().list]: [listed] is the [messages] key, which
    the API leaves out when nothing matches. *)
Record ListResponse := { listed : option (list MessageRef) }.

(** The response of [messages().get(format='metadata')], as far as it is
    read: [md_headers] is [msg_detail['payload']['headers']]. *)
Record MessageMetadata := { md_headers : option (list Header) }.

(** The two operations of the module-level [service] that [fetch_inbox]
    uses, each the whole chain up to [.execute()]: the listing with its
    [labelIds] and [maxResults], and the metadata read. *)
Record InboxService (W : Type) := {
  messages_list : list str -> N -> M W ListResponse;
  messages_get_metadata : str -> M W MessageMetadata
}.
Arguments messages_list {W}.
Arguments messages_get_metadata {W}.

(** An element of the list [fetch_inbox] returns:
    [{'id': ..., 'subject': ..., 'sender': ...}]. *)
Record EmailEntry := { e_id : str; e_subject : str; e_sender : str }.

(** [next((h['value'] for h in headers if h['name'] == name), dflt)] *)
Fixpoint header_value (name : str) (headers : list Header) (dflt : str) : str :=
  match headers with
  | [] => dflt
  | h :: rest =>
      if str_eqb (h_name h) name then h_value h
      else header_value name rest dflt
  end.

(** The header carries the name, as line 70 compares it. *)
Definition named (name : str) (h : Header) : bool := str_eqb (h_name h) name.

(** What [fetch_inbox] leaves: the line it shows with [st.error], if any,
    and the list it returns. *)
Record FetchOutcome := { shown_error : option str; fetched : list EmailEntry }.

Section Inbox.

Context {W : Type}.

(** [for msg in messages: ... email_list.append({...})], as the list built. *)
Fixpoint fetch_details (inbox : InboxService W) (messages : list MessageRef)
  : M W (list EmailEntry) :=
  match messages with
  | [] => mret []
  | msg :: rest =>
      msg_detail ← messages_get_metadata inbox (ref_id msg);
      headers ← lift (subscript "headers" (md_headers msg_detail));
      let subject := header_value (lit "Subject") headers (lit "(No Subject)") in
      let sender := header_value (lit "From") headers (lit "(Unknown)") in
      email_list ← fetch_details inbox rest;
      mret ({| e_id := ref_id msg; e_subject := subject; e_sender := sender |}
            :: email_list)
  end.

(** A read of the metadata that fails in every world. *)
Definition always_fails (inbox : InboxService W) (id : str) : Prop :=
  forall w, exists e w', messages_get_metadata inbox id w = (Raise e, w').

(** The [try] block of [fetch_inbox]. *)
Definition fetch_inbox_try (inbox : InboxService W) (max_results : N)
  : M W (list EmailEntry) :=
  results ← messages_list inbox [lit "INBOX"; lit "UNREAD"] max_results;
  let messages := default [] (listed results) in
  fetch_details inbox messages.

Definition fetch_inbox (inbox : InboxService W) (max_results : N)
  : M W FetchOutcome :=
  try_except
    (email_list ← fetch_inbox_try inbox max_results;
     mret {| shown_error := None; fetched := email_list |})
    (fun e => mret {| shown_error :=
                        Some (lit "Error fetching inbox: " ++ str_of_exn e);
                      fetched := [] |}).

End Inbox.

(* ------------------------------------------------------------------ *)
(** ** Section 4 of [app.py], continued: the sidebar and the script *)

(** The decimal digits of a number, most significant first. *)
Fixpoint digits (u : Decimal.uint) : str :=
  match u with
  | Decimal.Nil => []
  | Decimal.D0 u => 48 :: digits u
  | Decimal.D1 u => 49 :: digits u
  | Decimal.D2 u => 50 :: digits u
  | Decimal.D3 u => 51 :: digits u
  | Decimal.D4 u => 52 :: digits u
  | Decimal.D5 u => 53 :: digits u
  | Decimal.D6 u => 54 :: digits u
  | Decimal.D7 u => 55 :: digits u
  | Decimal.D8 u => 56 :: digits u
  | Decimal.D9 u => 57 :: digits u
  end.

(** A decimal digit. *)
Definition is_digit (c : N) : Prop := 48 <= c <= 57.

(** [str(n)] for a natural number, as an f-string prints it. *)
Definition str_of_nat (n : nat) : str := digits (Nat.to_uint n).

(** [s.split(sep)[0]] for a separator of one character: what comes before
    its first occurrence, the whole string when there is none. *)
Fixpoint split_head (sep : N) (s : str) : str :=
  match s with
  | [] => []
  | c :: s' => if c =? sep then [] else c :: split_head sep s'
  end.

(** [f"{i+1}. {e['sender'].split('<')[0].strip()} - {e['subject'][:30]}..."] *)
Definition email_option (i : nat) (e : EmailEntry) : str :=
  str_of_nat (i + 1) ++ lit ". " ++ strip (split_head 60 (e_sender e))
  ++ lit " - " ++ firstn 30 (e_subject e) ++ lit "...".

(** The comprehension over [enumerate(st.session_state.emails)]. *)
Definition email_options (emails : list EmailEntry) : list str :=
  imap email_option emails.

(** [l.index(x)]: the first position of [x], a [ValueError] when absent
    (its text shows [x] between plain quotes). *)
Fixpoint list_index (x : str) (l : list str) : result nat :=
  match l with
  | [] => Raise (Error (lit "'" ++ x ++ lit "' is not in list"))
  | y :: l' => if str_eqb y x then Ret 0%nat
               else i ← list_index x l'; Ret (S i)
  end.

(** Lines 260 to 265. *)
Definition full_prompt (current_email_data : EmailEntry)
    (email_body_text : str) (current_email_id : str) : str :=
  lit "Subject: " ++ e_subject current_email_data ++ [10]
  ++ lit "From: " ++ e_sender current_email_data ++ [10]
  ++ lit "Body:" ++ [10] ++ email_body_text ++ [10; 10]
  ++ lit "The ID of this email is: " ++ current_email_id
  ++ lit ". Use this ID when calling archive_email_by_id or delete_email_by_id tools.".

(** [st.session_state], as far as the script uses it. *)
Record Session := {
  emails : list EmailEntry;
  selected_email_index : nat
}.

(** The session of a fresh browser tab, lines 205 to 208. *)
Definition fresh_session : Session :=
  {| emails := []; selected_email_index := 0 |}.

(** What the widgets answer during one run of the script: whether each
    button was pressed, and what [st.radio] returns for its options and
    its [index] argument (it raises on an index it refuses). *)
Record Widgets := {
  refresh_button : bool;
  radio : list str -> nat -> result str;
  process_button : bool
}.

(** [st.radio] returns one of the options it was given. *)
Definition radio_returns_an_option (wd : Widgets) : Prop :=
  forall options index o, radio wd options index = Ret o -> o ∈ options.

(** [st.session_state.runner.run_debug(full_prompt)], awaited: the events
    of the engine; the tools it calls act on the world. *)
Class AgentRunner (W : Type) := run_debug : str -> M W (list Event).

Section Script.

Context {W : Type} `{PyLibs} `{AgentRunner W}.

(** A call that acts on the world only, within a run of the script. *)
Definition on_world {A} (m : M W A) : M (W * Session) A :=
  fun ws => let '(r, w') := m (fst ws) in (r, (w', snd ws)).

Definition get_session : M (W * Session) Session :=
  fun ws => (Ret (snd ws), ws).

Definition set_session (s : Session) : M (W * Session) unit :=
  fun ws => (Ret (), (fst ws, s)).

(** [st.session_state.emails = fetch_inbox()] and
    [st.session_state.selected_email_index = 0]. *)
Definition refresh (inbox : InboxService W) : M (W * Session) unit :=
  out ← on_world (fetch_inbox inbox 10);
  set_session {| emails := fetched out; selected_email_index := 0 |}.

(** The sidebar, lines 211 to 228. *)
Definition sidebar (inbox : InboxService W) (wd : Widgets)
  : M (W * Session) unit :=
  _ ← (if refresh_button wd then refresh inbox else mret ());
  s ← get_session;
  match emails s with
  | _ :: _ =>
      let options := email_options (emails s) in
      selected_option ← lift (radio wd options (selected_email_index s));
      i ← lift (list_index selected_option options);
      set_session {| emails := emails s; selected_email_index := i |}
  | [] => mret ()
  end.

(** [l[i]], an [IndexError] when out of range. *)
Definition list_subscript {A} (l : list A) (i : nat) : result A :=
  match l !! i with
  | Some a => Ret a
  | None => Raise (Error (lit "list index out of range"))
  end.

(** What the main area does with the email it shows. *)
Record MainView := {
  shown_email : EmailEntry;
  shown_body : str;
  asked : option str;          (* the prompt given to the engine *)
  handler_page : list ui       (* what the button handler shows *)
}.

(** The main area, lines 234 to 328: [None] when the guard of line 234
    fails and nothing is shown. The events are typed: a text that is
    present is a string and a tool call has a name and arguments, so the
    loop over the events does not raise here. *)
Definition main_area (inbox : InboxService W) (g : Globals W) (wd : Widgets)
  : M (W * Session) (option MainView) :=
  s ← get_session;
  match emails s with
  | _ :: _ =>
      if (selected_email_index s <? length (emails s))%nat then
        current_email_data ←
          lift (list_subscript (emails s) (selected_email_index s));
        let g' := {| service := service g;
                     CURRENT_EMAIL_ID := Some (e_id current_email_data) |} in
        email_body_text ← on_world (get_email_body g' (e_id current_email_data));
        if process_button wd then
          let prompt := full_prompt current_email_data email_body_text
                          (e_id current_email_data) in
          response_events ← on_world (run_debug prompt);
          _ ← (if action_taken (run_events response_events)
               then refresh inbox else mret ());
          mret (Some {| shown_email := current_email_data;
                        shown_body := email_body_text;
                        asked := Some prompt;
                        handler_page := process_click response_events |})
        else
          mret (Some {| shown_email := current_email_data;
                        shown_body := email_body_text;
                        asked := None; handler_page := [] |})
      else mret None
  | [] => mret None
  end.

(** One run of the script from line 210 on. *)
Definition script_run (inbox : InboxService W) (g : Globals W) (wd : Widgets)
  : M (W * Session) (option MainView) :=
  _ ← sidebar inbox wd;
  main_area inbox g wd.

(** Successive runs, each from the world and the session the one before
    left, whether it ended or stopped on an exception. *)
Fixpoint script_runs (inbox : InboxService W) (g : Globals W)
    (wds : list Widgets) (ws : W * Session) : W * Session :=
  match wds with
  | [] => ws
  | wd :: rest => script_runs inbox g rest (snd (script_run inbox g wd ws))
  end.

End Script.

(** The selection is within the list, or the list is empty. *)
Definition session_ok (s : Session) : Prop :=
  emails s = [] \/ (selected_email_index s < length (emails s))%nat.

(* ------------------------------------------------------------------ *)
(** ** Concrete inputs *)

Definition text_event (t : string) : Event :=
  {| ev_tool_calls := None; ev_message := Some {| msg_text := Some (lit t) |} |}.

Definition tool_event (name args : string) : Event :=
  {| ev_tool_calls := Some [{| tc_name := lit name; tc_args := lit args |}];
     ev_message := None |}.

(** A remark, a tool call, then the closing message. *)
Definition events_remark_first : list Event :=
  [text_event "I will archive this email.";
   tool_event "archive_email_by_id" "{'email_id': 'm1'}";
   text_event "I've classified this email as FYI and archived it."].

(** One textual event, an echoed invocation, and no tool call. *)
Definition events_echo_only : list Event :=
  [text_event "print(archive_email_by_id(email_id='m1'))"].

(** One tool call and no text at all. *)
Definition events_tool_only : list Event :=
  [tool_event "archive_email_by_id" "{'email_id': 'm1'}"].

(** One textual event with blanks around it, and no tool call. *)
Definition events_single_text : list Event :=
  [text_event "  I've classified this email as FYI. No action was taken. "].

(** A line boundary of [str.splitlines]. *)
Definition is_line_boundary (c : N) : bool :=
  ((10 <=? c) && (c <=? 13)) || ((28 <=? c) && (c <=? 30))
  || (c =? 133) || (c =? 8232) || (c =? 8233).

(** [len(s.splitlines())], with [pending] true when the line being read
    has characters; a carriage return and the line feed after it are one
    boundary. *)
Fixpoint splitlines_count (s : list N) (pending : bool) : nat :=
  match s with
  | [] => if pending then 1%nat else 0%nat
  | c :: s' =>
      if c =? 13 then
        match s' with
        | c' :: s'' =>
            if c' =? 10 then S (splitlines_count s'' false)
            else S (splitlines_count s' false)
        | [] => 1%nat
        end
      else if is_line_boundary c then S (splitlines_count s' false)
      else splitlines_count s' true
  end.

(** Stand-ins for the library calls, for the examples: the [email] library
    refuses a header value of more than one line
    ([len(value.splitlines()) > 1]); the payload codecs are left
    trivial. *)
Definition has_line_break (s : list N) : bool :=
  (1 <? splitlines_count s false)%nat.

Definition example_libs : PyLibs :=
  {| EmailMessage_as_bytes := fun body recipient subject =>
       if has_line_break recipient || has_line_break subject
       then Raise (Error (lit
         "Header values may not contain linefeed or carriage return characters"))
       else Ret [];
     urlsafe_b64encode := fun _ => [];
     urlsafe_b64decode := fun _ => Ret [];
     bytes_decode := fun _ => Ret [];
     soup_get_text := fun text => Ret text |}.

Definition simple_message (d : string) : GmailMessage :=
  {| payload := {| parts := None; payload_body := {| data := Some (lit d) |} |} |}.

(** A mailbox with one unread message [m1] in the inbox. *)
Definition mailbox_one : Mailbox :=
  {| stored := {[ lit "m1" := {| labelIds := {[ INBOX; lit "UNREAD" ]};
                                 resource := simple_message "aGVsbG8=" |} ]};
     drafts := [] |}.

(** The module globals over the reference mailbox, with [m1] selected. *)
Definition example_globals : Globals Mailbox :=
  {| service := reference_service; CURRENT_EMAIL_ID := Some (lit "m1") |}.

(** A payload whose first [text/plain] part is empty and whose second part
    is HTML. *)
Definition payload_empty_plain : Payload :=
  {| parts := Some [{| mimeType := lit "text/plain";
                       body := {| data := Some [] |} |};
                    {| mimeType := lit "text/html";
                       body := {| data := Some (lit "PGI-aGk8L2I-") |} |}];
     payload_body := {| data := None |} |}.

(** A small world for the examples of the listing and of the script: the
    unread messages of the inbox, newest first, each with its headers and
    the data of its body. *)
Record MiniMail := { mm_id : str; mm_headers : list Header; mm_data : str }.

Definition mini_find (id : list N) (box : list MiniMail) : option MiniMail :=
  List.find (fun m => str_eqb (mm_id m) id) box.

(** The listing returns at most [maxResults] messages; a read of a message
    that is not there fails. *)
Definition mini_inbox : InboxService (list MiniMail) :=
  {| messages_list := fun _ max_results box =>
       (Ret {| listed := Some (List.map (fun m => {| ref_id := mm_id m |})
                                  (firstn (N.to_nat max_results) box)) |},
        box);
     messages_get_metadata := fun id box =>
       match mini_find id box with
       | Some m => (Ret {| md_headers := Some (mm_headers m) |}, box)
       | None => (Raise not_found, box)
       end |}.

(** A message leaves the inbox when [INBOX] is removed or [TRASH] added. *)
Definition mini_gmail : GmailService (list MiniMail) :=
  {| messages_get := fun id _ box =>
       match mini_find id box with
       | Some m =>
           (Ret {| payload := {| parts := None;
                                 payload_body := {| data := Some (mm_data m) |} |} |},
            box)
       | None => (Raise not_found, box)
       end;
     messages_modify := fun id b box =>
       match mini_find id box with
       | Some _ =>
           (Ret (),
            if existsb (fun l => str_eqb l (lit "INBOX")) (removeLabelIds b)
               || existsb (fun l => str_eqb l (lit "TRASH")) (addLabelIds b)
            then List.filter (fun m => negb (str_eqb (mm_id m) id)) box
            else box)
       | None => (Raise not_found, box)
       end;
     drafts_create := fun _ box => (Ret {| draft_id := Some (lit "r1") |}, box) |}.

Definition mini_globals : Globals (list MiniMail) :=
  {| service := mini_gmail; CURRENT_EMAIL_ID := None |}.

(** An engine that answers with one closing message and calls no tool. *)
Definition mini_runner : AgentRunner (list MiniMail) :=
  fun _ box =>
    (Ret [text_event "I've classified this email as FYI. No action was taken."],
     box).

Definition mini_box : list MiniMail :=
  [{| mm_id := lit "m1";
      mm_headers := [{| h_name := lit "From"; h_value := lit "Ann <ann@x.com>" |};
                     {| h_name := lit "Subject"; h_value := lit "Lunch" |}];
      mm_data := lit "aGk=" |};
   {| mm_id := lit "m2";
      mm_headers := [{| h_name := lit "Subject"; h_value := lit "Lunch" |};
                     {| h_name := lit "From"; h_value := lit "Ann <ann@x.com>" |};
                     {| h_name := lit "Subject"; h_value := lit "Dinner" |}];
      mm_data := lit "aGk=" |}].

(** The two entries [fetch_inbox] builds from [mini_box]. *)
Definition mini_emails : list EmailEntry :=
  [{| e_id := lit "m1"; e_subject := lit "Lunch";
      e_sender := lit "Ann <ann@x.com>" |};
   {| e_id := lit "m2"; e_subject := lit "Lunch";
      e_sender := lit "Ann <ann@x.com>" |}].

(** Widgets of a run in which the user picks the option at position [k]
    (the radio keeps its [index] argument when there is no such option) and
    presses the buttons as given. *)
Definition pick_widgets (k : nat) (refresh process : bool) : Widgets :=
  {| refresh_button := refresh;
     radio := fun options index =>
       match options !! k with
       | Some o => Ret o
       | None =>
           match options !! index with
           | Some o => Ret o
           | None => Raise (Error (lit "Radio index out of range"))
           end
       end;
     process_button := process |}.

(** A gateway that lists two messages and cannot read the second. *)
Definition flaky_inbox : InboxService unit :=
  {| messages_list := fun _ _ w =>
       (Ret {| listed := Some [{| ref_id := lit "m1" |};
                               {| ref_id := lit "m2" |}] |}, w);
     messages_get_metadata := fun id w =>
       if str_eqb id (lit "m2") then (Raise not_found, w)
       else (Ret {| md_headers := Some [] |}, w) |}.

(** An engine that cannot be reached. *)
Definition failing_runner : AgentRunner (list MiniMail) :=
  fun _ box => (Raise (Error (lit "engine unavailable")), box).

(* ------------------------------------------------------------------ *)
(** * Properties *)

(** Unfolds the monad of the tools down to pairs of result and world. *)
Ltac unfold_monad :=
  unfold try_except, mbind, M_bind, bind, lift, mret, M_ret, ret.

(** ** Facts on [strip] *)

Section StripFacts.

Implicit Types s t : list N.

Lemma lstrip_clean_head s : clean_head (lstrip s).
Proof.
  induction s as [|c s IH]; simpl; [exact I|].
  destruct (isspace c) eqn:E; [exact IH | exact E].
Qed.

Lemma lstrip_fixed s : clean_head s -> lstrip s = s.
Proof. destruct s as [|c s]; simpl; [reflexivity|]. now intros ->. Qed.

Lemma lstrip_idem s : lstrip (lstrip s) = lstrip s.
Proof. apply lstrip_fixed, lstrip_clean_head. Qed.

Lemma lstrip_suffix s : exists ws, s = ws ++ lstrip s.
Proof.
  induction s as [|c s [ws IH]]; simpl; [now exists []|].
  destruct (isspace c).
  - exists (c :: ws). simpl. now rewrite <- IH.
  - now exists [].
Qed.

Lemma rstrip_prefix s : exists ws, s = rstrip s ++ ws.
Proof.
  unfold rstrip. destruct (lstrip_suffix (rev s)) as [ws E].
  exists (rev ws).
  rewrite <- rev_app_distr, <- E. symmetry. apply rev_involutive.
Qed.

Lemma rstrip_idem s : rstrip (rstrip s) = rstrip s.
Proof. unfold rstrip. now rewrite rev_involutive, lstrip_idem. Qed.

Lemma rstrip_clean_head s : clean_head s -> clean_head (rstrip s).
Proof.
  destruct (rstrip_prefix s) as [ws E]. intros Hs.
  destruct (rstrip s) as [|c r]; [exact I|].
  rewrite E in Hs. exact Hs.
Qed.

Lemma strip_idem s : strip (strip s) = strip s.
Proof.
  unfold strip.
  rewrite (lstrip_fixed (rstrip (lstrip s))).
  - apply rstrip_idem.
  - apply rstrip_clean_head, lstrip_clean_head.
Qed.

Lemma startswith_app s t : startswith (s ++ t) s = true.
Proof.
  induction s as [|c s IH]; simpl; [reflexivity|].
  now rewrite N.eqb_refl, IH.
Qed.

(** [p in s] holds of every string that has [p] somewhere inside. *)
Lemma contains_infix s pre post : contains (pre ++ s ++ post) s = true.
Proof.
  induction pre as [|c pre IH]; simpl.
  - destruct (s ++ post) eqn:E; simpl; rewrite <- E, startswith_app;
      reflexivity.
  - rewrite IH. apply orb_true_r.
Qed.

Lemma truthy_nonempty s : truthy s = true <-> s <> [].
Proof. destruct s; simpl; split; congruence. Qed.

End StripFacts.

(** ** The loop over the events *)

Section EventLoop.

Implicit Types (events : list Event) (st : LoopState).

Lemma loop_messages events st :
  potential_agent_messages (fold_left loop_body events st)
  = potential_agent_messages st
    ++ List.map strip (List.filter nonblank (textual_events events)).
Proof.
  revert st. induction events as [|e events IH]; intros st; simpl.
  - now rewrite app_nil_r.
  - rewrite IH. unfold loop_body, textual_events, event_text. simpl.
    destruct (ev_tool_calls e) as [[|c cs]|], (ev_message e) as [[[t|]]|];
      simpl; try reflexivity;
      unfold nonblank, blank; rewrite negb_involutive;
      destruct (truthy (strip t)); simpl; try reflexivity;
      now rewrite <- app_assoc.
Qed.

Lemma loop_action_taken events st :
  action_taken (fold_left loop_body events st)
  = action_taken st || existsb is_tool_call_event events.
Proof.
  revert st. induction events as [|e events IH]; intros st; simpl.
  - now rewrite orb_false_r.
  - rewrite IH. unfold loop_body, is_tool_call_event.
    destruct (ev_tool_calls e) as [[|c cs]|], (ev_message e) as [[[t|]]|];
      simpl; try destruct (truthy (strip t)); simpl;
      rewrite ?orb_true_r, ?orb_false_r; try reflexivity;
      now destruct (action_taken st).
Qed.

Lemma loop_written_all events st :
  written (fold_left loop_body events st)
  = written st ++ flat_map echoes events.
Proof.
  revert st. induction events as [|e events IH]; intros st; simpl.
  - now rewrite app_nil_r.
  - rewrite IH. unfold loop_body, echoes.
    destruct (ev_tool_calls e) as [[|c cs]|], (ev_message e) as [[[t|]]|];
      simpl; try destruct (truthy (strip t)); simpl;
      rewrite <- ?app_assoc; reflexivity.
Qed.

Lemma echoes_none events :
  existsb is_tool_call_event events = false -> flat_map echoes events = [].
Proof.
  induction events as [|e events IH]; simpl; [reflexivity|].
  intros [He Hs]%orb_false_elim. rewrite (IH Hs), app_nil_r.
  unfold is_tool_call_event in He. unfold echoes.
  now destruct (ev_tool_calls e) as [[|c cs]|].
Qed.

Lemma loop_written events st :
  existsb is_tool_call_event events = false ->
  written (fold_left loop_body events st) = written st.
Proof.
  intros Hs. now rewrite loop_written_all, (echoes_none _ Hs), app_nil_r.
Qed.

Lemma first_agent_dialogue_filter (ts : list (list N)) :
  first_agent_dialogue (List.map strip (List.filter nonblank ts))
  = default [] (head (List.map strip (List.filter qualifies ts))).
Proof.
  induction ts as [|t ts IH]; [reflexivity|].
  cbn [List.filter]. unfold qualifies at 1, nonblank at 1.
  destruct (blank t) eqn:B; cbn [negb andb]; [exact IH|].
  unfold blank in B. apply negb_false_iff in B.
  cbn [List.map first_agent_dialogue]. rewrite strip_idem, B, andb_true_r.
  unfold looks_like_tool_echo. rewrite negb_orb.
  destruct (negb (startswith (strip t) tool_code_prefix)
            && negb (startswith (strip t) print_prefix));
    [reflexivity | exact IH].
Qed.

Lemma extract_report_spec events :
  extract_report events = default [] (spec_final_report events).
Proof.
  unfold extract_report, run_events, spec_final_report.
  rewrite loop_messages. simpl. apply first_agent_dialogue_filter.
Qed.

Lemma spec_final_report_truthy events r :
  spec_final_report events = Some r -> truthy r = true.
Proof.
  unfold spec_final_report.
  induction (textual_events events) as [|t ts IH]; simpl; [discriminate|].
  destruct (qualifies t) eqn:Q; simpl; [|exact IH].
  intros [= <-]. unfold qualifies, blank in Q.
  apply andb_true_iff in Q as [Q _]. now rewrite negb_involutive in Q.
Qed.

Lemma textual_events_app events1 events2 :
  textual_events (events1 ++ events2)
  = textual_events events1 ++ textual_events events2.
Proof. apply omap_app. Qed.

Lemma first_qualifying_split events :
  Forall (fun t => qualifies t = false) (textual_events events)
  \/ exists pre e post t,
       events = pre ++ e :: post /\ event_text e = Some t
       /\ qualifies t = true
       /\ Forall (fun t' => qualifies t' = false) (textual_events pre).
Proof.
  induction events as [|e events IH].
  - left. constructor.
  - destruct (event_text e) as [t|] eqn:Et.
    + destruct (qualifies t) eqn:Q.
      * right. exists [], e, events, t. repeat split; auto.
      * destruct IH as [IH | (pre & e' & post & t' & -> & Et' & Q' & F)].
        -- left. unfold textual_events. simpl. rewrite Et. now constructor.
        -- right. exists (e :: pre), e', post, t'. repeat split; auto.
           unfold textual_events. simpl. rewrite Et. now constructor.
    + destruct IH as [IH | (pre & e' & post & t' & -> & Et' & Q' & F)].
      * left. unfold textual_events. simpl. now rewrite Et.
      * right. exists (e :: pre), e', post, t'. repeat split; auto.
        unfold textual_events. simpl. now rewrite Et.
Qed.

Lemma filter_none {A} (f : A -> bool) (l : list A) :
  Forall (fun x => f x = false) l -> List.filter f l = [].
Proof.
  induction 1 as [|x l Hx _ IH]; simpl; [reflexivity|]. now rewrite Hx.
Qed.

End EventLoop.

(** ** The report *)

Section Report.

Implicit Types (events : list Event).

(** The whole page of one click: the echoes of the tool calls, then either
    the rerun, or the report of the selection rule or the fallback. *)
Lemma process_click_cases events :
  process_click events
  = [st_write ([0x1F9E0] ++ lit " Analyzing content and deciding actions...")]
    ++ flat_map echoes events
    ++ (if existsb is_tool_call_event events
        then [status_update ([0x2705] ++ lit " Real Actions Executed!");
              refresh_inbox; st_rerun]
        else [status_update (lit "Finished analyzing. No actions taken.");
              st_subheader (lit "Agent Final Report");
              match spec_final_report events with
              | Some r => st_success r
              | None => st_info fallback_text
              end]).
Proof.
  unfold process_click. fold (extract_report events).
  unfold run_events at 1 2. rewrite loop_written_all, loop_action_taken.
  cbn [written action_taken loop_start app orb]. do 2 f_equal.
  destruct (existsb is_tool_call_event events); [reflexivity|].
  do 2 f_equal. rewrite extract_report_spec.
  destruct (spec_final_report events) as [r|] eqn:E; [|reflexivity].
  change (default [] (Some r)) with r. unfold final_report_display.
  now rewrite (spec_final_report_truthy _ _ E).
Qed.

(** C3 as stated fails: in [events_tool_only] no candidate qualifies, and
    the page shows no fallback message: after the tool call the handler
    refreshes the inbox and reruns the script, and the lines that show the
    report or the fallback are not reached. *)
Lemma fallback_hidden_after_tool_call :
  spec_final_report events_tool_only = None
  /\ extract_report events_tool_only = []
  /\ process_click events_tool_only
     = [st_write ([0x1F9E0] ++ lit " Analyzing content and deciding actions...");
        st_write ([0x1F6E0; 0xFE0F]
                  ++ lit " **Executing Real Tool:** `archive_email_by_id` with args: `{'email_id': 'm1'}`");
        status_update ([0x2705] ++ lit " Real Actions Executed!");
        refresh_inbox; st_rerun]
  /\ (st_info (lit "Look at the terminal for the output")
      ∉ process_click events_tool_only).
Proof.
  split; [reflexivity|]. split; [reflexivity|]. split; [reflexivity|].
  intros Hin. vm_compute in Hin.
  repeat (apply elem_of_cons in Hin as [Hin|Hin]; [discriminate Hin|]).
  now apply elem_of_nil in Hin.
Qed.

(** C3, amended. For every event sequence the extraction scans the textual
    events in production order, drops the blank ones and those that start
    (once trimmed) with [tool_code:] or [print(], and takes the first that
    remains, trimmed, as the report; when no event carries a tool call the
    page ends with that report, or with the fallback message "Look at the
    terminal for the output" when no event qualifies. *)
Theorem report_extraction_rule events :
  extract_report events = default [] (spec_final_report events)
  /\ (existsb is_tool_call_event events = false ->
      process_click events
      = [st_write ([0x1F9E0]
                   ++ lit " Analyzing content and deciding actions...");
         status_update (lit "Finished analyzing. No actions taken.");
         st_subheader (lit "Agent Final Report");
         match spec_final_report events with
         | Some r => st_success r
         | None => st_info (lit "Look at the terminal for the output")
         end]).
Proof.
  split; [apply extract_report_spec|].
  intros Hcalls. rewrite process_click_cases, Hcalls.
  now rewrite (echoes_none _ Hcalls).
Qed.

Lemma report_extraction_rule_witness :
  existsb is_tool_call_event events_echo_only = false
  /\ spec_final_report events_echo_only = None
  /\ process_click events_echo_only
     = [st_write ([0x1F9E0]
                  ++ lit " Analyzing content and deciding actions...");
        status_update (lit "Finished analyzing. No actions taken.");
        st_subheader (lit "Agent Final Report");
        st_info (lit "Look at the terminal for the output")].
Proof.
  split; [reflexivity|]. split; [reflexivity|].
  destruct (report_extraction_rule events_echo_only) as [_ Hpage].
  exact (Hpage eq_refl).
Defined.

(** C2 as stated fails: on [events_remark_first] the extracted report is the
    opening remark, which precedes the tool call and the closing message;
    on the empty sequence the report is empty. *)
Lemma report_not_terminal :
  extract_report events_remark_first = lit "I will archive this email."
  /\ ~ report_is_terminal events_remark_first
         (extract_report events_remark_first)
  /\ ~ report_is_terminal [] (extract_report []).
Proof.
  split; [reflexivity|]. split.
  - intros [_ (pre & e & t & E & Et & St)].
    change events_remark_first
      with ([text_event "I will archive this email.";
             tool_event "archive_email_by_id" "{'email_id': 'm1'}"]
            ++ [text_event
                  "I've classified this email as FYI and archived it."])
      in E.
    apply app_inj_tail in E as [_ <-].
    injection Et as <-. vm_compute in St. discriminate St.
  - intros [H _]. now apply H.
Qed.

(** C2, amended. The handler extracts one report per event sequence: the
    trimmed text of the first event whose text qualifies, which is then not
    empty; the report is empty exactly when no textual event qualifies.
    Nothing places it after the tool calls or at the end. *)
Theorem report_is_first_qualifying events :
  (extract_report events = []
   /\ Forall (fun t => qualifies t = false) (textual_events events))
  \/ (exists pre e post t,
        events = pre ++ e :: post /\ event_text e = Some t
        /\ qualifies t = true
        /\ Forall (fun t' => qualifies t' = false) (textual_events pre)
        /\ extract_report events = strip t /\ strip t <> []).
Proof.
  rewrite extract_report_spec. unfold spec_final_report.
  destruct (first_qualifying_split events)
    as [F | (pre & e & post & t & -> & Et & Q & F)].
  - left. split; [|exact F]. now rewrite (filter_none _ _ F).
  - right. exists pre, e, post, t. repeat split; auto.
    + rewrite textual_events_app, List.filter_app, (filter_none _ _ F).
      unfold textual_events at 1. simpl. rewrite Et. simpl. now rewrite Q.
    + apply truthy_nonempty. unfold qualifies, blank in Q.
      apply andb_true_iff in Q as [Q _]. now rewrite negb_involutive in Q.
Qed.

(** C6 as stated fails: the only textual event of [events_echo_only] is an
    echoed invocation, there is no tool call, and the report is empty. *)
Lemma single_echo_event_no_report :
  existsb is_tool_call_event events_echo_only = false
  /\ textual_events events_echo_only
     = [lit "print(archive_email_by_id(email_id='m1'))"]
  /\ extract_report events_echo_only = []
  /\ extract_report events_echo_only
     <> strip (lit "print(archive_email_by_id(email_id='m1'))").
Proof. repeat split; try reflexivity. vm_compute. discriminate. Qed.

(** C6, amended. With no tool-call event and exactly one textual event
    that does not look like an echoed invocation, the report is that text
    trimmed, no tool call is echoed or counted, and the page ends with the
    report (or with the fallback when the text is blank). *)
Theorem single_text_event_report events (t : list N) :
  existsb is_tool_call_event events = false ->
  textual_events events = [t] ->
  looks_like_tool_echo t = false ->
  extract_report events = strip t
  /\ action_taken (run_events events) = false
  /\ written (run_events events) = []
  /\ process_click events
     = [st_write ([0x1F9E0] ++ lit " Analyzing content and deciding actions...");
        status_update (lit "Finished analyzing. No actions taken.");
        st_subheader (lit "Agent Final Report");
        final_report_display (strip t)].
Proof.
  intros Hcalls Htext Hecho.
  assert (Hr : extract_report events = strip t).
  { rewrite extract_report_spec. unfold spec_final_report.
    rewrite Htext. simpl. unfold qualifies. rewrite Hecho, andb_true_r.
    unfold blank. rewrite negb_involutive.
    destruct (truthy (strip t)) eqn:T; simpl; [reflexivity|].
    destruct (strip t); [reflexivity | discriminate]. }
  assert (Ha : action_taken (run_events events) = false).
  { unfold run_events. now rewrite loop_action_taken, Hcalls. }
  assert (Hw : written (run_events events) = []).
  { unfold run_events. now rewrite loop_written. }
  repeat split; auto.
  unfold process_click. fold (extract_report events).
  now rewrite Ha, Hw, Hr.
Qed.

Lemma single_text_event_report_witness :
  extract_report events_single_text
  = lit "I've classified this email as FYI. No action was taken."
  /\ process_click events_single_text
     = [st_write ([0x1F9E0] ++ lit " Analyzing content and deciding actions...");
        status_update (lit "Finished analyzing. No actions taken.");
        st_subheader (lit "Agent Final Report");
        st_success
          (lit "I've classified this email as FYI. No action was taken.")].
Proof.
  destruct (single_text_event_report events_single_text
    (lit "  I've classified this email as FYI. No action was taken. "))
    as (Hr & _ & _ & Hp); [reflexivity | reflexivity | reflexivity |].
  split; [exact Hr | exact Hp].
Defined.

End Report.

(** ** The tools *)

Section ToolFacts.

Context {W : Type} `{PyLibs}.

Implicit Types (g : Globals W) (w : W) (e : exn).

Lemma draft_email_cases g (recipient subject body : list N) w :
  draft_email g recipient subject body w
  = match EmailMessage_as_bytes body recipient subject with
    | Raise e => (Ret (error_result e), w)
    | Ret bs =>
        match drafts_create (service g) {| raw := urlsafe_b64encode bs |} w with
        | (Raise e, w') => (Ret (error_result e), w')
        | (Ret d, w') =>
            match draft_id d with
            | None => (Ret (error_result (KeyError (lit "id"))), w')
            | Some id =>
                (Ret {| status := success;
                        message := [0x2705] ++ lit " Real draft created! ID: "
                                   ++ id |}, w')
            end
        end
    end.
Proof.
  unfold draft_email. unfold_monad.
  destruct (EmailMessage_as_bytes body recipient subject) as [bs|e];
    [|reflexivity].
  destruct (drafts_create _ _ w) as [[d|e] w']; [|reflexivity].
  now destruct (draft_id d).
Qed.

Lemma archive_email_by_id_cases g (email_id : list N) w :
  archive_email_by_id g email_id w
  = if truthy email_id then
      match messages_modify (service g) email_id archive_request w with
      | (Raise e, w') => (Ret (error_result e), w')
      | (Ret _, w') =>
          (Ret {| status := success;
                  message := [0x1F4E6] ++ lit " Email " ++ email_id
                             ++ lit " has been really archived." |}, w')
      end
    else (Ret {| status := error;
                 message := lit "Email ID not provided for archiving." |}, w).
Proof.
  unfold archive_email_by_id, archive_request.
  destruct (truthy email_id); [|reflexivity]. simpl.
  unfold_monad.
  now destruct (messages_modify _ _ _ w) as [[[]|e] w'].
Qed.

Lemma delete_email_by_id_cases g (email_id : list N) w :
  delete_email_by_id g email_id w
  = if truthy email_id then
      match messages_modify (service g) email_id delete_request w with
      | (Raise e, w') => (Ret (error_result e), w')
      | (Ret _, w') =>
          (Ret {| status := success;
                  message := [0x1F5D1; 0xFE0F] ++ lit " Email " ++ email_id
                             ++ lit " moved to trash." |}, w')
      end
    else (Ret {| status := error;
                 message := lit "Email ID not provided for deleting." |}, w).
Proof.
  unfold delete_email_by_id, delete_request.
  destruct (truthy email_id); [|reflexivity]. simpl.
  unfold_monad.
  now destruct (messages_modify _ _ _ w) as [[[]|e] w'].
Qed.

Lemma invoke_returns g (c : ToolInvocation) w :
  returns_tool_result (invoke g c w).
Proof.
  unfold returns_tool_result.
  destruct c as [recipient subject body|email_id|email_id|task date]; simpl.
  - rewrite draft_email_cases.
    destruct (EmailMessage_as_bytes body recipient subject) as [bs|e];
      [|eauto 6].
    destruct (drafts_create _ _ w) as [[d|e] w']; [|eauto 6].
    destruct (draft_id d); eauto 6.
  - rewrite archive_email_by_id_cases.
    destruct (truthy email_id); [|eauto 6].
    destruct (messages_modify _ _ _ w) as [[[]|e] w']; eauto 6.
  - rewrite delete_email_by_id_cases.
    destruct (truthy email_id); [|eauto 6].
    destruct (messages_modify _ _ _ w) as [[[]|e] w']; eauto 6.
  - eauto 6.
Qed.

Lemma archive_gateway_failure g (email_id : list N) w e w' :
  email_id <> [] ->
  messages_modify (service g) email_id archive_request w = (Raise e, w') ->
  archive_email_by_id g email_id w = (Ret (error_result e), w').
Proof.
  intros Hid Hm. rewrite archive_email_by_id_cases, Hm.
  apply truthy_nonempty in Hid. now rewrite Hid.
Qed.

Lemma delete_gateway_failure g (email_id : list N) w e w' :
  email_id <> [] ->
  messages_modify (service g) email_id delete_request w = (Raise e, w') ->
  delete_email_by_id g email_id w = (Ret (error_result e), w').
Proof.
  intros Hid Hm. rewrite delete_email_by_id_cases, Hm.
  apply truthy_nonempty in Hid. now rewrite Hid.
Qed.

(** C1. Each of the four tools returns, for every input and whatever the
    gateway does, a dict whose status is ["success"] or ["error"] and never
    raises; a failure of the message construction, of the gateway call or
    of the lookup of the draft id becomes the dict with status ["error"]
    and, as message, the description [str(e)] of the exception: the text an
    error of the gateway or of a library carries, the quoted key for a
    missing key. *)
Theorem tools_never_raise g w :
  (forall c, exists r w',
     invoke g c w = (Ret r, w')
     /\ (status r = lit "success" \/ status r = lit "error"))
  /\ (forall d k,
        str_of_exn (Error d) = d
        /\ str_of_exn (KeyError k) = lit "'" ++ k ++ lit "'")
  /\ (forall recipient subject body e,
        EmailMessage_as_bytes body recipient subject = Raise e ->
        draft_email g recipient subject body w
        = (Ret {| status := lit "error"; message := str_of_exn e |}, w))
  /\ (forall recipient subject body bs e w',
        EmailMessage_as_bytes body recipient subject = Ret bs ->
        drafts_create (service g) {| raw := urlsafe_b64encode bs |} w
        = (Raise e, w') ->
        draft_email g recipient subject body w
        = (Ret {| status := lit "error"; message := str_of_exn e |}, w'))
  /\ (forall recipient subject body bs d w',
        EmailMessage_as_bytes body recipient subject = Ret bs ->
        drafts_create (service g) {| raw := urlsafe_b64encode bs |} w
        = (Ret d, w') ->
        draft_id d = None ->
        draft_email g recipient subject body w
        = (Ret {| status := lit "error"; message := lit "'id'" |}, w'))
  /\ (forall email_id e w',
        email_id <> [] ->
        messages_modify (service g) email_id
          {| addLabelIds := []; removeLabelIds := [lit "INBOX"] |} w
        = (Raise e, w') ->
        archive_email_by_id g email_id w
        = (Ret {| status := lit "error"; message := str_of_exn e |}, w'))
  /\ (forall email_id e w',
        email_id <> [] ->
        messages_modify (service g) email_id
          {| addLabelIds := [lit "TRASH"]; removeLabelIds := [] |} w
        = (Raise e, w') ->
        delete_email_by_id g email_id w
        = (Ret {| status := lit "error"; message := str_of_exn e |}, w')).
Proof.
  split; [intros c; apply invoke_returns|].
  split; [intros d k; split; reflexivity|].
  split; [intros * E; now rewrite draft_email_cases, E|].
  split; [intros * E D; now rewrite draft_email_cases, E, D|].
  split; [intros * E D I; now rewrite draft_email_cases, E, D, I|].
  split; intros *; [apply archive_gateway_failure
                   | apply delete_gateway_failure].
Qed.

(** [create_reminder] has no argument it checks: with an empty task and
    an empty date it returns [success]. *)
Example reminder_with_empty_arguments :
  create_reminder example_globals [] [] mailbox_one
  = (Ret {| status := lit "success";
            message := [0x23F0] ++ lit " Reminder set:  on " |},
     mailbox_one).
Proof. reflexivity. Qed.

(** C4. The identifier the tools require is the [email_id] of
    [archive_email_by_id] and [delete_email_by_id]. When it is missing
    (empty) the tool returns status ["error"] with a "not provided"
    message and leaves the gateway alone; when it is invalid (the gateway
    rejects the call) the tool returns status ["error"] with the gateway's
    description; so does [draft_email] when the library or the gateway
    rejects its arguments. None of the four tools raises: each returns a
    dict with status ["success"] or ["error"]. *)
Theorem missing_email_id_is_error g w :
  (archive_email_by_id g [] w
   = (Ret {| status := lit "error";
             message := lit "Email ID not provided for archiving." |}, w)
   /\ contains (lit "Email ID not provided for archiving.")
               (lit "not provided") = true)
  /\ (delete_email_by_id g [] w
      = (Ret {| status := lit "error";
                message := lit "Email ID not provided for deleting." |}, w)
      /\ contains (lit "Email ID not provided for deleting.")
                  (lit "not provided") = true)
  /\ (forall email_id e w',
        email_id <> [] ->
        messages_modify (service g) email_id
          {| addLabelIds := []; removeLabelIds := [lit "INBOX"] |} w
        = (Raise e, w') ->
        archive_email_by_id g email_id w
        = (Ret {| status := lit "error"; message := str_of_exn e |}, w'))
  /\ (forall email_id e w',
        email_id <> [] ->
        messages_modify (service g) email_id
          {| addLabelIds := [lit "TRASH"]; removeLabelIds := [] |} w
        = (Raise e, w') ->
        delete_email_by_id g email_id w
        = (Ret {| status := lit "error"; message := str_of_exn e |}, w'))
  /\ (forall recipient subject body e,
        EmailMessage_as_bytes body recipient subject = Raise e ->
        draft_email g recipient subject body w
        = (Ret {| status := lit "error"; message := str_of_exn e |}, w))
  /\ (forall recipient subject body bs e w',
        EmailMessage_as_bytes body recipient subject = Ret bs ->
        drafts_create (service g) {| raw := urlsafe_b64encode bs |} w
        = (Raise e, w') ->
        draft_email g recipient subject body w
        = (Ret {| status := lit "error"; message := str_of_exn e |}, w'))
  /\ (forall d, str_of_exn (Error d) = d)
  /\ (forall c, exists r w',
        invoke g c w = (Ret r, w')
        /\ (status r = lit "success" \/ status r = lit "error")).
Proof.
  split; [split; reflexivity|].
  split; [split; reflexivity|].
  split; [intros *; apply archive_gateway_failure|].
  split; [intros *; apply delete_gateway_failure|].
  split; [intros * E; now rewrite draft_email_cases, E|].
  split; [intros * E D; now rewrite draft_email_cases, E, D|].
  split; [reflexivity|].
  intros c. apply invoke_returns.
Qed.

(** C7. [create_reminder] returns [success] with a message that names the
    task and the date, for every task and date; it has no other outcome
    and leaves the world behind the gateway as it was. *)
Theorem create_reminder_always_succeeds g (task date : list N) w :
  exists r,
    create_reminder g task date w = (Ret r, w)
    /\ status r = success /\ status r <> error
    /\ message r = [0x23F0] ++ lit " Reminder set: " ++ task
                   ++ lit " on " ++ date
    /\ contains (message r) task = true
    /\ contains (message r) date = true.
Proof.
  eexists. split; [reflexivity|]. cbn [status message].
  split; [reflexivity|].
  split; [intros E; vm_compute in E; discriminate E|].
  split; [reflexivity|].
  split.
  - rewrite (app_assoc [0x23F0]). apply contains_infix.
  - replace ([0x23F0] ++ lit " Reminder set: " ++ task ++ lit " on " ++ date)
      with (([0x23F0] ++ lit " Reminder set: " ++ task ++ lit " on ")
            ++ date ++ []).
    + apply contains_infix.
    + rewrite app_nil_r. now rewrite <- !app_assoc.
Qed.

(** C9. The result of a tool, and the world it leaves, do not depend on
    [CURRENT_EMAIL_ID]: two runs with the same service, arguments and world
    agree whatever the two values of the global. *)
Theorem tools_ignore_current_email_id
    (svc : GmailService W) (selected1 selected2 : option (list N))
    (c : ToolInvocation) w :
  invoke {| service := svc; CURRENT_EMAIL_ID := selected1 |} c w
  = invoke {| service := svc; CURRENT_EMAIL_ID := selected2 |} c w.
Proof. destruct c; reflexivity. Qed.

End ToolFacts.

(** ** The body reader *)

Section BodyFacts.

Context {W : Type} `{PyLibs}.

Implicit Types (g : Globals W) (w : W) (e : exn).

Lemma scan_parts_find (mime : list N) (ps : list MessagePart) d0 :
  scan_parts mime ps d0
  = match List.find (is_mime mime) ps with
    | Some q => data_of (body q)
    | None => Ret d0
    end.
Proof.
  induction ps as [|p ps IH]; simpl; [reflexivity|].
  unfold is_mime at 1. now destruct (str_eqb (mimeType p) mime).
Qed.

(** [get_email_body] with its handler and its final [return] unfolded. *)
Lemma get_email_body_cases g (msg_id : list N) w :
  get_email_body g msg_id w
  = match messages_get (service g) msg_id (lit "full") w with
    | (Raise e, w') => (Ret (error_reading_body e), w')
    | (Ret msg, w') =>
        (Ret match select_data (payload msg) with
             | Raise e => error_reading_body e
             | Ret None => no_readable_content
             | Ret (Some d) =>
                 if truthy d
                 then match decode_data d with
                      | Ret shown => shown
                      | Raise e => error_reading_body e
                      end
                 else no_readable_content
             end, w')
    end.
Proof.
  unfold get_email_body, get_email_body_try. unfold_monad.
  destruct (messages_get _ _ _ w) as [[msg|e] w']; [|reflexivity].
  destruct (select_data (payload msg)) as [[d|]|e]; try reflexivity.
  destruct (truthy d); [|reflexivity].
  now destruct (decode_data d).
Qed.



(** C10 as stated fails: [payload_empty_plain] has a [text/plain] part, and
    the data that goes to the decoder is that of its [text/html] part. *)
Lemma html_chosen_despite_plain_part :
  existsb (is_mime text_plain) (default [] (parts payload_empty_plain)) = true
  /\ List.find (is_mime text_html) (default [] (parts payload_empty_plain))
     = Some {| mimeType := lit "text/html";
               body := {| data := Some (lit "PGI-aGk8L2I-") |} |}
  /\ select_data payload_empty_plain = Ret (Some (lit "PGI-aGk8L2I-")).
Proof. repeat split; reflexivity. Qed.

Lemma select_data_by_preference_ok (payload : Payload) :
  select_data payload = select_data_by_preference payload.
Proof.
  unfold select_data, select_data_by_preference.
  destruct (parts payload) as [[|p ps]|]; try reflexivity.
  rewrite scan_parts_find.
  destruct (List.find (is_mime text_plain) (p :: ps)) as [q|].
  - unfold data_of, subscript.
    destruct (data (body q)) as [d|]; [|reflexivity].
    cbn [mbind result_bind]. cbn [truthy_opt].
    destruct (truthy d); cbn [negb]; [reflexivity|].
    apply scan_parts_find.
  - cbn [mbind result_bind truthy_opt negb]. apply scan_parts_find.
Qed.

(** C10, amended. The data that [get_email_body] decodes is chosen by
    preference: with parts, that of the first [text/plain] part when it is
    not empty, and that of the first [text/html] part when there is no
    [text/plain] part or when the data of the first one is empty; without
    parts, that of the top-level body. *)
Theorem select_data_prefers_plain g (msg_id : list N) w :
  (forall payload, select_data payload = select_data_by_preference payload)
  /\ get_email_body g msg_id w
     = match messages_get (service g) msg_id (lit "full") w with
       | (Raise e, w') => (Ret (error_reading_body e), w')
       | (Ret msg, w') =>
           (Ret match select_data_by_preference (payload msg) with
                | Raise e => error_reading_body e
                | Ret None => no_readable_content
                | Ret (Some d) =>
                    if truthy d
                    then match decode_data d with
                         | Ret shown => shown
                         | Raise e => error_reading_body e
                         end
                    else no_readable_content
                end, w')
       end.
Proof.
  split; [apply select_data_by_preference_ok|].
  rewrite get_email_body_cases.
  destruct (messages_get _ _ _ w) as [[msg|e] w']; [|reflexivity].
  now rewrite select_data_by_preference_ok.
Qed.

End BodyFacts.

(** ** Archive and delete on the reference mailbox *)

Section Relabel.

Implicit Types (mb : Mailbox) (m : StoredMessage) (id : list N).

Lemma mailbox_eta mb : {| stored := stored mb; drafts := drafts mb |} = mb.
Proof. now destruct mb. Qed.

Lemma reference_modify_known mb id m (b : ModifyBody) :
  stored mb !! id = Some m ->
  messages_modify reference_service id b mb
  = (Ret (), {| stored := <[id := relabel b m]> (stored mb);
                drafts := drafts mb |}).
Proof. intros Hm. simpl. now rewrite Hm. Qed.

(** The request that takes back a relabelling of [m] by [b]: it removes
    what [b] added and [m] did not have, and adds what [b] removed and [m]
    had. *)
Lemma relabel_undone m (b undo : ModifyBody) :
  (forall l, l ∈ addLabelIds undo <-> l ∈ labelIds m /\ l ∈ removeLabelIds b) ->
  (forall l, l ∈ removeLabelIds undo
             <-> (l ∉ labelIds m) /\ (l ∈ addLabelIds b)
                 /\ (l ∉ removeLabelIds b)) ->
  relabel undo (relabel b m) = m.
Proof.
  intros Ha Hr. destruct m as [ls res]. unfold relabel. simpl in *. f_equal.
  apply set_eq. intros l.
  rewrite elem_of_difference, elem_of_union, elem_of_difference,
    elem_of_union, !elem_of_list_to_set, Ha, Hr.
  destruct (decide (l ∈ ls)), (decide (l ∈ addLabelIds b)),
    (decide (l ∈ removeLabelIds b)); tauto.
Qed.

Lemma reference_modify_undone mb id m (b undo : ModifyBody) :
  stored mb !! id = Some m ->
  relabel undo (relabel b m) = m ->
  snd (messages_modify reference_service id undo
         (snd (messages_modify reference_service id b mb))) = mb.
Proof.
  intros Hm Hu. rewrite (reference_modify_known _ _ _ _ Hm). simpl.
  rewrite lookup_insert_eq. simpl.
  rewrite insert_insert_eq, Hu, (insert_id _ _ _ Hm).
  apply mailbox_eta.
Qed.

Lemma relabel_archive m :
  relabel archive_request m
  = {| labelIds := labelIds m ∖ {[INBOX]}; resource := resource m |}.
Proof. unfold relabel. f_equal. simpl. fold INBOX. set_solver. Qed.

Lemma relabel_delete m :
  relabel delete_request m
  = {| labelIds := labelIds m ∪ {[TRASH]}; resource := resource m |}.
Proof. unfold relabel. f_equal. simpl. fold TRASH. set_solver. Qed.

Lemma undo_archive_ok m :
  relabel (undo_archive m) (relabel archive_request m) = m.
Proof.
  apply relabel_undone; intros l; unfold undo_archive, archive_request; simpl;
    fold INBOX; destruct (decide (INBOX ∈ labelIds m)); set_solver.
Qed.

Lemma undo_delete_ok m :
  relabel (undo_delete m) (relabel delete_request m) = m.
Proof.
  apply relabel_undone; intros l; unfold undo_delete, delete_request; simpl;
    fold TRASH; destruct (decide (TRASH ∈ labelIds m)); set_solver.
Qed.

Lemma dom_insert_known mb id m m' :
  stored mb !! id = Some m ->
  dom (<[id := m']> (stored mb)) = dom (stored mb).
Proof.
  intros Hm. rewrite dom_insert_L.
  apply elem_of_dom_2 in Hm. set_solver.
Qed.

(** C5. [archive_email_by_id] and [delete_email_by_id] touch the world only
    through one relabelling request: remove [INBOX], respectively add
    [TRASH]. On the reference mailbox, for a message it holds, the call
    succeeds, changes the labels of that message exactly so, keeps every
    message (and every draft) in the mailbox, and a second relabelling
    request restores the mailbox as it was. *)
Theorem archive_and_delete_relabel_only
    {W : Type} (g' : Globals W) (w : W)
    (selected : option (list N)) mb id m :
  id <> [] ->
  stored mb !! id = Some m ->
  let g := {| service := reference_service; CURRENT_EMAIL_ID := selected |} in
  (snd (archive_email_by_id g' id w)
   = snd (messages_modify (service g') id archive_request w)
   /\ snd (delete_email_by_id g' id w)
      = snd (messages_modify (service g') id delete_request w))
  /\ (exists r mb',
        archive_email_by_id g id mb = (Ret r, mb') /\ status r = success
        /\ stored mb'
           = <[id := {| labelIds := labelIds m ∖ {[INBOX]};
                        resource := resource m |}]> (stored mb)
        /\ drafts mb' = drafts mb
        /\ dom (stored mb') = dom (stored mb)
        /\ exists undo,
             snd (messages_modify reference_service id undo mb') = mb)
  /\ (exists r mb',
        delete_email_by_id g id mb = (Ret r, mb') /\ status r = success
        /\ stored mb'
           = <[id := {| labelIds := labelIds m ∪ {[TRASH]};
                        resource := resource m |}]> (stored mb)
        /\ drafts mb' = drafts mb
        /\ dom (stored mb') = dom (stored mb)
        /\ exists undo,
             snd (messages_modify reference_service id undo mb') = mb).
Proof.
  intros Hid Hm g. pose proof Hid as Ht. apply truthy_nonempty in Ht.
  split; [|split].
  - rewrite archive_email_by_id_cases, delete_email_by_id_cases, Ht.
    split.
    + now destruct (messages_modify _ _ archive_request w) as [[[]|e] w'].
    + now destruct (messages_modify _ _ delete_request w) as [[[]|e] w'].
  - rewrite archive_email_by_id_cases, Ht.
    cbn [service g]. rewrite (reference_modify_known _ _ _ _ Hm).
    eexists _, _. split; [reflexivity|]. split; [reflexivity|].
    cbn [stored drafts]. rewrite relabel_archive.
    split; [reflexivity|]. split; [reflexivity|].
    split; [now apply (dom_insert_known _ _ m)|].
    exists (undo_archive m).
    rewrite <- relabel_archive.
    pose proof (reference_modify_undone mb id m archive_request
                  (undo_archive m) Hm (undo_archive_ok m)) as U.
    now rewrite (reference_modify_known _ _ _ _ Hm) in U.
  - rewrite delete_email_by_id_cases, Ht.
    cbn [service g]. rewrite (reference_modify_known _ _ _ _ Hm).
    eexists _, _. split; [reflexivity|]. split; [reflexivity|].
    cbn [stored drafts]. rewrite relabel_delete.
    split; [reflexivity|]. split; [reflexivity|].
    split; [now apply (dom_insert_known _ _ m)|].
    exists (undo_delete m).
    rewrite <- relabel_delete.
    pose proof (reference_modify_undone mb id m delete_request
                  (undo_delete m) Hm (undo_delete_ok m)) as U.
    now rewrite (reference_modify_known _ _ _ _ Hm) in U.
Qed.

End Relabel.

(** ** The theorems at concrete inputs *)

Section Examples.

Example strip_example :
  strip (lit "  I've classified this email as FYI.  ")
  = lit "I've classified this email as FYI.".
Proof. reflexivity. Qed.

(** After a tool call the page is rerun and shows no report. *)
Example process_click_after_tool_call :
  process_click events_remark_first
  = [st_write ([0x1F9E0] ++ lit " Analyzing content and deciding actions...");
     st_write ([0x1F6E0; 0xFE0F]
               ++ lit " **Executing Real Tool:** `archive_email_by_id` with args: `{'email_id': 'm1'}`");
     status_update ([0x2705] ++ lit " Real Actions Executed!");
     refresh_inbox; st_rerun].
Proof. reflexivity. Qed.

Example archive_m1 :
  fst (archive_email_by_id example_globals (lit "m1") mailbox_one)
  = Ret {| status := success;
           message := [0x1F4E6] ++ lit " Email m1 has been really archived." |}.
Proof. vm_compute. reflexivity. Qed.

Example draft_with_line_break :
  fst (draft_email (H := example_libs) example_globals
         (lit "a@x.com") [82; 101; 10; 88] (lit "Hello") mailbox_one)
  = Ret {| status := error;
           message := lit
             "Header values may not contain linefeed or carriage return characters" |}.
Proof. vm_compute. reflexivity. Qed.

(** A subject that only ends with a line break is one line and passes. *)
Example draft_with_trailing_line_break :
  fst (draft_email (H := example_libs) example_globals
         (lit "a@x.com") [82; 101; 10] (lit "Hello") mailbox_one)
  = Ret {| status := lit "success";
           message := [0x2705] ++ lit " Real draft created! ID: r" |}.
Proof. vm_compute. reflexivity. Qed.

Lemma tools_never_raise_witness :
  archive_email_by_id example_globals (lit "m9") mailbox_one
  = (Ret {| status := lit "error";
            message := lit "Requested entity was not found." |}, mailbox_one).
Proof.
  destruct (tools_never_raise (H := example_libs) example_globals mailbox_one)
    as (_ & _ & _ & _ & _ & Harchive & _).
  apply (Harchive (lit "m9") not_found).
  - intros E. vm_compute in E. discriminate E.
  - vm_compute. reflexivity.
Defined.

Lemma missing_email_id_is_error_witness :
  delete_email_by_id example_globals (lit "m9") mailbox_one
  = (Ret {| status := lit "error";
            message := lit "Requested entity was not found." |}, mailbox_one).
Proof.
  destruct (missing_email_id_is_error (H := example_libs)
              example_globals mailbox_one)
    as (_ & _ & _ & Hdelete & _).
  apply (Hdelete (lit "m9") not_found).
  - intros E. vm_compute in E. discriminate E.
  - vm_compute. reflexivity.
Defined.


Lemma archive_and_delete_relabel_only_witness :
  lit "m1" <> []
  /\ stored mailbox_one !! lit "m1"
     = Some {| labelIds := {[ INBOX; lit "UNREAD" ]};
               resource := simple_message "aGVsbG8=" |}
  /\ (exists r mb',
        archive_email_by_id example_globals (lit "m1") mailbox_one
        = (Ret r, mb')
        /\ status r = success
        /\ dom (stored mb') = dom (stored mailbox_one)
        /\ exists undo,
             snd (messages_modify reference_service (lit "m1") undo mb')
             = mailbox_one).
Proof.
  assert (Hid : lit "m1" <> []).
  { intros E. vm_compute in E. discriminate E. }
  assert (Hm : stored mailbox_one !! lit "m1"
               = Some {| labelIds := {[ INBOX; lit "UNREAD" ]};
                         resource := simple_message "aGVsbG8=" |}).
  { apply lookup_singleton_eq. }
  split; [exact Hid|]. split; [exact Hm|].
  destruct (archive_and_delete_relabel_only example_globals mailbox_one
              (Some (lit "m1")) mailbox_one (lit "m1") _ Hid Hm)
    as (_ & (r & mb' & Hrun & Hs & _ & _ & Hdom & Hundo) & _).
  exists r, mb'. repeat split; assumption.
Defined.

End Examples.

(* ------------------------------------------------------------------ *)
(** * Further properties of the code *)

(** ** The inbox listing *)

Section InboxFacts.

Context {W : Type}.

Implicit Types (inbox : InboxService W) (w : W) (e : exn).

Lemma header_value_find (name : list N) (headers : list Header) (dflt : list N) :
  header_value name headers dflt
  = match List.find (named name) headers with
    | Some h => h_value h
    | None => dflt
    end.
Proof.
  induction headers as [|h hs IH]; simpl; [reflexivity|].
  unfold named at 1. now destruct (str_eqb (h_name h) name).
Qed.


Lemma fetch_details_ids inbox (messages : list MessageRef) w l w' :
  fetch_details inbox messages w = (Ret l, w') ->
  List.map e_id l = List.map ref_id messages.
Proof.
  revert w l w'. induction messages as [|m ms IH]; intros w l w'; simpl.
  - now intros [= <- _].
  - unfold_monad.
    destruct (messages_get_metadata inbox (ref_id m) w) as [[md|e] w1];
      [|discriminate].
    destruct (subscript "headers" (md_headers md)) as [hs|e]; [|discriminate].
    destruct (fetch_details inbox ms w1) as [[l'|e] w2] eqn:E; [|discriminate].
    intros [= <- _]. simpl. f_equal. exact (IH _ _ _ E).
Qed.

Lemma fetch_details_unreadable inbox (messages : list MessageRef) m w :
  m ∈ messages -> always_fails inbox (ref_id m) ->
  exists e w', fetch_details inbox messages w = (Raise e, w').
Proof.
  intros Hin Hfail. revert w.
  induction messages as [|m' ms IH]; intros w; [now apply elem_of_nil in Hin|].
  simpl. unfold_monad.
  apply elem_of_cons in Hin as [->|Hin].
  - destruct (Hfail w) as (e & w' & ->). eauto.
  - destruct (messages_get_metadata inbox (ref_id m') w) as [[md|e] w1];
      [|eauto].
    destruct (subscript "headers" (md_headers md)) as [hs|e]; [|eauto].
    destruct (IH Hin w1) as (e & w' & ->). eauto.
Qed.

Lemma fetch_inbox_cases inbox (max_results : N) w :
  fetch_inbox inbox max_results w
  = match fetch_inbox_try inbox max_results w with
    | (Ret l, w') => (Ret {| shown_error := None; fetched := l |}, w')
    | (Raise e, w') =>
        (Ret {| shown_error :=
                  Some (lit "Error fetching inbox: " ++ str_of_exn e);
                fetched := [] |}, w')
    end.
Proof.
  unfold fetch_inbox. unfold_monad.
  now destruct (fetch_inbox_try inbox max_results w) as [[l|e] w'].
Qed.

(** X1. [fetch_inbox] never raises, and it is all or nothing: either it
    shows no error, or it shows one and returns the empty list, also when
    the failure comes after some messages were read. *)
Theorem fetch_inbox_all_or_nothing inbox (max_results : N) w :
  exists out w',
    fetch_inbox inbox max_results w = (Ret out, w')
    /\ (shown_error out = None
        \/ (fetched out = []
            /\ exists e, shown_error out
                         = Some (lit "Error fetching inbox: " ++ str_of_exn e))).
Proof.
  rewrite fetch_inbox_cases.
  destruct (fetch_inbox_try inbox max_results w) as [[l|e] w'];
    eexists _, _; (split; [reflexivity|]); simpl; eauto.
Qed.

(** X2. When [fetch_inbox] shows no error, the gateway listed the unread
    inbox messages and the entries returned are those messages, one for
    one and in the order of the listing. *)
Theorem fetch_inbox_keeps_listing inbox (max_results : N) w out w' :
  fetch_inbox inbox max_results w = (Ret out, w') ->
  shown_error out = None ->
  exists resp w1,
    messages_list inbox [lit "INBOX"; lit "UNREAD"] max_results w
    = (Ret resp, w1)
    /\ List.map e_id (fetched out)
       = List.map ref_id (default [] (listed resp))
    /\ length (fetched out) = length (default [] (listed resp)).
Proof.
  rewrite fetch_inbox_cases. unfold fetch_inbox_try. unfold_monad.
  destruct (messages_list inbox _ max_results w) as [[resp|e] w1];
    [|intros [= <- _]; discriminate].
  destruct (fetch_details inbox _ w1) as [[l|e] w2] eqn:E;
    [|intros [= <- _]; discriminate].
  intros [= <- _] _. exists resp, w1. split; [reflexivity|].
  pose proof (fetch_details_ids _ _ _ _ _ E) as Hids. simpl.
  split; [exact Hids|].
  rewrite <- (length_map e_id), Hids. apply length_map.
Qed.

(** X3. One listed message whose metadata cannot be read empties the whole
    view: [fetch_inbox] shows an error and returns the empty list. *)
Theorem fetch_inbox_one_unreadable inbox (max_results : N) w resp w1 m :
  messages_list inbox [lit "INBOX"; lit "UNREAD"] max_results w
  = (Ret resp, w1) ->
  m ∈ default [] (listed resp) ->
  always_fails inbox (ref_id m) ->
  exists out w',
    fetch_inbox inbox max_results w = (Ret out, w')
    /\ fetched out = [] /\ shown_error out <> None.
Proof.
  intros Hl Hin Hfail. rewrite fetch_inbox_cases.
  unfold fetch_inbox_try. unfold_monad. rewrite Hl.
  destruct (fetch_details_unreadable inbox _ m w1 Hin Hfail) as (e & w' & ->).
  eexists _, _. split; [reflexivity|]. simpl. split; [reflexivity|discriminate].
Qed.

End InboxFacts.

(** ** The options of the sidebar *)

Section OptionFacts.

Implicit Types (emails : list EmailEntry) (e : EmailEntry).

Lemma digits_are_digits (u : Decimal.uint) : Forall is_digit (digits u).
Proof.
  induction u; simpl; constructor; try assumption; unfold is_digit; lia.
Qed.

Lemma digits_inj (u v : Decimal.uint) : digits u = digits v -> u = v.
Proof.
  revert v. induction u; intros [] E; simpl in E; try discriminate;
    try reflexivity; injection E as E; f_equal; auto.
Qed.

Lemma str_of_nat_inj (n m : nat) : str_of_nat n = str_of_nat m -> n = m.
Proof.
  intros E. apply DecimalNat.Unsigned.to_uint_inj, digits_inj, E.
Qed.

(** Two strings of digits, each followed by a dot: the digits agree. *)
Lemma digits_then_dot (d1 d2 r1 r2 : list N) :
  Forall is_digit d1 -> Forall is_digit d2 ->
  d1 ++ 46 :: r1 = d2 ++ 46 :: r2 -> d1 = d2.
Proof.
  intros H1. revert d2. induction H1 as [|c d1 Hc _ IH]; intros d2 H2 E.
  - destruct H2 as [|c' d2 Hc' _]; [reflexivity|].
    simpl in E. injection E as <- _. unfold is_digit in Hc'. lia.
  - destruct H2 as [|c' d2 Hc' H2].
    + simpl in E. injection E as -> _. unfold is_digit in Hc. lia.
    + simpl in E. injection E as -> E. f_equal. now apply IH.
Qed.

Lemma email_option_index (i j : nat) e e' :
  email_option i e = email_option j e' -> i = j.
Proof.
  unfold email_option. intros E.
  change (lit ". ") with (46 :: [32]) in E.
  rewrite <- !app_comm_cons in E.
  apply digits_then_dot in E; try apply digits_are_digits.
  apply str_of_nat_inj in E. lia.
Qed.

Lemma email_options_lookup emails (k : nat) (o : list N) :
  email_options emails !! k = Some o ->
  exists e, emails !! k = Some e /\ o = email_option k e.
Proof.
  unfold email_options. rewrite list_lookup_imap.
  destruct (emails !! k) as [e|]; simpl; [|discriminate].
  intros [= <-]. eauto.
Qed.

Lemma email_options_NoDup emails : NoDup (email_options emails).
Proof.
  apply NoDup_alt. intros i j o Hi Hj.
  apply email_options_lookup in Hi as (e & _ & ->).
  apply email_options_lookup in Hj as (e' & _ & E).
  exact (email_option_index _ _ _ _ E).
Qed.

Lemma list_index_NoDup (l : list (list N)) (k : nat) (x : list N) :
  NoDup l -> l !! k = Some x -> list_index x l = Ret k.
Proof.
  intros Hnd. revert k. induction Hnd as [|y l Hy _ IH]; intros k Hk.
  - discriminate.
  - simpl. unfold str_eqb. destruct k as [|k]; simpl in Hk.
    + injection Hk as ->. now rewrite bool_decide_eq_true_2.
    + rewrite bool_decide_eq_false_2.
      * now rewrite (IH _ Hk).
      * intros ->. apply Hy. eapply list_elem_of_lookup_2, Hk.
Qed.

Lemma list_index_elem (l : list (list N)) (x : list N) :
  x ∈ l -> exists k, list_index x l = Ret k /\ l !! k = Some x.
Proof.
  induction l as [|y l IH]; intros Hin; [now apply elem_of_nil in Hin|].
  simpl. unfold str_eqb. destruct (decide (y = x)) as [->|Hne].
  - rewrite bool_decide_eq_true_2 by reflexivity. now exists 0%nat.
  - rewrite bool_decide_eq_false_2 by assumption.
    apply elem_of_cons in Hin as [->|Hin]; [done|].
    destruct (IH Hin) as (k & -> & Hk). now exists (S k).
Qed.

(** X5. The options of the sidebar are pairwise distinct, whatever the
    senders and subjects (their running number tells them apart), so
    [email_options.index] gives back the position of the option chosen:
    choosing the option at position [k] selects the email at position
    [k]. *)
Theorem option_index_round_trip emails (k : nat) (o : list N) :
  email_options emails !! k = Some o ->
  NoDup (email_options emails)
  /\ list_index o (email_options emails) = Ret k
  /\ exists e, emails !! k = Some e /\ o = email_option k e.
Proof.
  intros Hk. split; [apply email_options_NoDup|]. split.
  - apply list_index_NoDup; [apply email_options_NoDup | exact Hk].
  - now apply email_options_lookup.
Qed.

Lemma split_head_no_sep (sep : N) (s : list N) : sep ∉ split_head sep s.
Proof.
  induction s as [|c s IH]; simpl; [apply not_elem_of_nil|].
  destruct (c =? sep) eqn:E; [apply not_elem_of_nil|].
  apply N.eqb_neq in E. rewrite not_elem_of_cons. split; [congruence|exact IH].
Qed.

Lemma lstrip_elem (s : list N) (c : N) : c ∈ lstrip s -> c ∈ s.
Proof.
  destruct (lstrip_suffix s) as [ws E]. intros Hc. rewrite E.
  apply elem_of_app. now right.
Qed.

Lemma strip_elem (s : list N) (c : N) : c ∈ strip s -> c ∈ s.
Proof.
  unfold strip. destruct (rstrip_prefix (lstrip s)) as [ws E]. intros Hc.
  apply lstrip_elem. rewrite E. apply elem_of_app. now left.
Qed.

(** X6. The shape of an option: the running number from one, the display
    name, which has no [<] and no blank at either end, and at most the
    first thirty characters of the subject. *)
Theorem email_option_shape (i : nat) e :
  exists name subject,
    email_option i e
    = str_of_nat (i + 1) ++ lit ". " ++ name ++ lit " - " ++ subject
      ++ lit "..."
    /\ (60 ∉ name) /\ strip name = name
    /\ (length subject <= 30)%nat
    /\ subject = firstn (length subject) (e_subject e).
Proof.
  exists (strip (split_head 60 (e_sender e))), (firstn 30 (e_subject e)).
  split; [reflexivity|]. split; [|split; [|split]].
  - intros Hc. apply strip_elem in Hc. exact (split_head_no_sep _ _ Hc).
  - apply strip_idem.
  - rewrite length_firstn. lia.
  - rewrite length_firstn.
    destruct (Nat.le_ge_cases 30 (length (e_subject e))) as [Hle|Hge].
    + now rewrite Nat.min_l.
    + rewrite Nat.min_r by assumption.
      now rewrite !firstn_all2 by lia.
Qed.

End OptionFacts.

(** ** The runs of the script *)

Section ScriptFacts.

Context {W : Type} `{PyLibs} `{AgentRunner W}.

Implicit Types (inbox : InboxService W) (g : Globals W) (wd : Widgets)
  (ws : W * Session) (s : Session) (w : W).

Ltac unfold_script :=
  unfold on_world, get_session, set_session; unfold_monad.

Lemma refresh_cases inbox ws :
  exists out w',
    fetch_inbox inbox 10 (fst ws) = (Ret out, w')
    /\ refresh inbox ws
       = (Ret (), (w', {| emails := fetched out; selected_email_index := 0 |})).
Proof.
  assert (exists out w', fetch_inbox inbox 10 (fst ws) = (Ret out, w'))
    as (out & w' & E).
  { rewrite fetch_inbox_cases.
    destruct (fetch_inbox_try inbox 10 (fst ws)) as [[l|e] w']; eauto. }
  exists out, w'. split; [exact E|].
  unfold refresh. unfold_script. now rewrite E.
Qed.

Lemma refresh_ok inbox ws :
  fst (refresh inbox ws) = Ret () /\ session_ok (snd (snd (refresh inbox ws))).
Proof.
  destruct (refresh_cases inbox ws) as (out & w' & _ & ->). split; [reflexivity|].
  unfold session_ok. simpl. destruct (fetched out); [now left|right; simpl; lia].
Qed.

(** The second half of the sidebar: the radio and the index. *)
Lemma sidebar_cases inbox wd ws :
  sidebar inbox wd ws
  = let ws1 := if refresh_button wd then snd (refresh inbox ws) else ws in
    let s := snd ws1 in
    match emails s with
    | [] => (Ret (), ws1)
    | _ :: _ =>
        match radio wd (email_options (emails s)) (selected_email_index s) with
        | Raise e => (Raise e, ws1)
        | Ret o =>
            match list_index o (email_options (emails s)) with
            | Raise e => (Raise e, ws1)
            | Ret i => (Ret (), (fst ws1, {| emails := emails s;
                                             selected_email_index := i |}))
            end
        end
    end.
Proof.
  unfold sidebar. unfold mbind at 1, M_bind at 1, bind at 1.
  assert (E : (if refresh_button wd then refresh inbox else mret ()) ws
              = (Ret (), if refresh_button wd then snd (refresh inbox ws)
                         else ws)).
  { destruct (refresh_button wd); [|reflexivity].
    destruct (refresh_ok inbox ws) as [E _].
    destruct (refresh inbox ws) as [r ws1]. simpl in *. now rewrite E. }
  rewrite E. cbv zeta.
  destruct (if refresh_button wd then snd (refresh inbox ws) else ws)
    as [w1 s1].
  unfold_script. simpl.
  destruct (emails s1) as [|e0 es]; [reflexivity|].
  destruct (radio wd _ _) as [o|e]; [|reflexivity].
  now destruct (list_index o _) as [i|e].
Qed.

Lemma sidebar_ok inbox wd ws :
  radio_returns_an_option wd ->
  session_ok (snd ws) ->
  session_ok (snd (snd (sidebar inbox wd ws))).
Proof.
  intros Hradio Hok. rewrite sidebar_cases. cbv zeta.
  assert (Hok1 : session_ok
            (snd (if refresh_button wd then snd (refresh inbox ws) else ws))).
  { destruct (refresh_button wd); [apply refresh_ok | exact Hok]. }
  destruct (if refresh_button wd then snd (refresh inbox ws) else ws)
    as [w1 s1]. simpl in *.
  destruct (emails s1) as [|e0 es] eqn:Es; [exact Hok1|].
  destruct (radio wd _ _) as [o|e] eqn:R; [|exact Hok1].
  apply Hradio, list_index_elem in R as (k & -> & Hk).
  right. simpl. apply lookup_lt_Some in Hk.
  unfold email_options in Hk. now rewrite length_imap in Hk.
Qed.

Lemma body_returns g (msg_id : list N) w :
  exists shown w', get_email_body g msg_id w = (Ret shown, w').
Proof.
  rewrite get_email_body_cases.
  destruct (messages_get _ _ _ w) as [[msg|e] w']; eauto.
Qed.

Lemma main_area_cases inbox g wd w s :
  main_area inbox g wd (w, s)
  = match emails s !! selected_email_index s with
    | None => (Ret None, (w, s))
    | Some current =>
        let g' := {| service := service g;
                     CURRENT_EMAIL_ID := Some (e_id current) |} in
        match get_email_body g' (e_id current) w with
        | (Raise e, w1) => (Raise e, (w1, s))
        | (Ret shown, w1) =>
            if process_button wd then
              match run_debug (full_prompt current shown (e_id current)) w1 with
              | (Raise e, w2) => (Raise e, (w2, s))
              | (Ret response_events, w2) =>
                  (Ret (Some {| shown_email := current;
                                shown_body := shown;
                                asked := Some (full_prompt current shown
                                                 (e_id current));
                                handler_page :=
                                  process_click response_events |}),
                   if action_taken (run_events response_events)
                   then snd (refresh inbox (w2, s)) else (w2, s))
              end
            else (Ret (Some {| shown_email := current; shown_body := shown;
                               asked := None; handler_page := [] |}), (w1, s))
        end
    end.
Proof.
  unfold main_area. unfold mbind at 1, M_bind at 1, bind at 1.
  unfold get_session at 1. cbn [snd].
  destruct (emails s) as [|e0 es] eqn:Es; [reflexivity|].
  destruct (selected_email_index s <? length (e0 :: es))%nat eqn:Hlt.
  - apply Nat.ltb_lt, lookup_lt_is_Some_2 in Hlt as [current Hc].
    rewrite Hc. unfold list_subscript. rewrite Hc.
    unfold_script. cbn [fst snd].
    destruct (get_email_body _ (e_id current) w) as [[shown|e] w1];
      [|reflexivity].
    destruct (process_button wd); [|reflexivity]. cbn [fst snd].
    destruct (run_debug _ w1) as [[response_events|e] w2]; [|reflexivity].
    destruct (action_taken (run_events response_events)); [|reflexivity].
    destruct (refresh_ok inbox (w2, s)) as [E _].
    destruct (refresh inbox (w2, s)) as [r ws1]. simpl in E. now rewrite E.
  - apply Nat.ltb_ge, lookup_ge_None_2 in Hlt. now rewrite Hlt.
Qed.

Lemma main_area_ok inbox g wd ws :
  session_ok (snd ws) -> session_ok (snd (snd (main_area inbox g wd ws))).
Proof.
  destruct ws as [w s]. intros Hok. rewrite main_area_cases. simpl in Hok.
  destruct (emails s !! selected_email_index s) as [current|]; [|exact Hok].
  cbv zeta. destruct (get_email_body _ _ w) as [[shown|e] w1]; [|exact Hok].
  destruct (process_button wd); [|exact Hok].
  destruct (run_debug _ w1) as [[response_events|e] w2]; [|exact Hok].
  destruct (action_taken _); [apply refresh_ok | exact Hok].
Qed.

Lemma script_run_cases inbox g wd ws :
  script_run inbox g wd ws
  = match sidebar inbox wd ws with
    | (Ret _, ws1) => main_area inbox g wd ws1
    | (Raise e, ws1) => (Raise e, ws1)
    end.
Proof. reflexivity. Qed.

Lemma script_run_ok inbox g wd ws :
  radio_returns_an_option wd ->
  session_ok (snd ws) ->
  session_ok (snd (snd (script_run inbox g wd ws))).
Proof.
  intros Hradio Hok. rewrite script_run_cases.
  pose proof (sidebar_ok inbox wd ws Hradio Hok) as Hs.
  destruct (sidebar inbox wd ws) as [[[]|e] ws1]; [|exact Hs].
  now apply main_area_ok.
Qed.

(** X7. The selection stays within the list of emails over any number of
    runs of the script, whatever the buttons pressed, the options chosen,
    the answers of the gateway and of the engine, and whether a run ended
    or stopped on an exception: [emails[selected_email_index]] is never out
    of range once the list is not empty. *)
Theorem selection_stays_in_range inbox g (wds : list Widgets) ws :
  Forall radio_returns_an_option wds ->
  session_ok (snd ws) ->
  session_ok (snd (script_runs inbox g wds ws)).
Proof.
  intros Hwds. revert ws.
  induction Hwds as [|wd wds Hwd _ IH]; intros ws Hok; [exact Hok|].
  simpl. apply IH. now apply script_run_ok.
Qed.

(** X8. Provided [st.radio] returns one of its options, the sidebar stops
    on an exception only if [st.radio] raised it: the refresh with
    [fetch_inbox] and [email_options.index] never raise there. *)
Theorem sidebar_failure_origin inbox wd ws e :
  radio_returns_an_option wd ->
  fst (sidebar inbox wd ws) = Raise e ->
  exists options index, radio wd options index = Raise e.
Proof.
  intros Hradio. rewrite sidebar_cases. cbv zeta.
  destruct (if refresh_button wd then snd (refresh inbox ws) else ws)
    as [w1 s1]. cbn [snd].
  destruct (emails s1) as [|e0 es]; [discriminate|].
  destruct (radio wd _ _) as [o|e'] eqn:R.
  - apply Hradio, list_index_elem in R as (k & -> & _). discriminate.
  - simpl. intros [= ->]. eauto.
Qed.


End ScriptFacts.

(** ** More on the report and on the page *)

Section ReportFacts.

Implicit Types (events : list Event).

Lemma spec_final_report_origin events (r : list N) :
  spec_final_report events = Some r ->
  exists t, t ∈ textual_events events /\ qualifies t = true /\ r = strip t.
Proof.
  unfold spec_final_report.
  induction (textual_events events) as [|t ts IH]; simpl; [discriminate|].
  destruct (qualifies t) eqn:Q; simpl.
  - intros [= <-]. exists t. split; [apply elem_of_cons; now left|]. now split.
  - intros Hr. destruct (IH Hr) as (t' & Hin & Q' & ->).
    exists t'. split; [apply elem_of_cons; now right|]. now split.
Qed.

(** X10. Whatever the events, the extracted report is either empty or a
    text with no blank at either end that starts neither with [tool_code:]
    nor with [print(]. *)
Theorem extracted_report_is_clean events :
  extract_report events = []
  \/ (extract_report events <> []
      /\ strip (extract_report events) = extract_report events
      /\ startswith (extract_report events) tool_code_prefix = false
      /\ startswith (extract_report events) print_prefix = false).
Proof.
  rewrite extract_report_spec.
  destruct (spec_final_report events) as [r|] eqn:E; [|now left].
  right. change (default [] (Some r)) with r.
  destruct (spec_final_report_origin _ _ E) as (t & _ & Q & ->).
  unfold qualifies, blank, looks_like_tool_echo in Q.
  rewrite negb_involutive, negb_orb in Q.
  apply andb_true_iff in Q as [T Q]. apply andb_true_iff in Q as [Q1 Q2].
  split; [now apply truthy_nonempty|]. split; [apply strip_idem|].
  split; now apply negb_true_iff.
Qed.

(** X11. Later events never replace a report: the report of a sequence
    followed by another is the report of the first when that is not empty,
    and the report of the second otherwise. *)
Theorem report_of_first_part_stands (events1 events2 : list Event) :
  extract_report (events1 ++ events2)
  = if truthy (extract_report events1)
    then extract_report events1 else extract_report events2.
Proof.
  rewrite !extract_report_spec.
  destruct (spec_final_report events1) as [r|] eqn:E.
  - change (default [] (Some r)) with r.
    rewrite (spec_final_report_truthy _ _ E).
    unfold spec_final_report in *.
    rewrite textual_events_app, List.filter_app, List.map_app.
    destruct (List.map strip (List.filter qualifies (textual_events events1)));
      [discriminate|].
    simpl in *. now injection E as ->.
  - change (default [] None) with (@nil N). cbn [truthy].
    unfold spec_final_report in *.
    rewrite textual_events_app, List.filter_app, List.map_app.
    now destruct (List.map strip
                    (List.filter qualifies (textual_events events1))).
Qed.

(** X12. Every message the loop collects is non-empty and already trimmed,
    so the test [msg.strip()] of line 307 never rejects a message. *)
Theorem collected_messages_are_trimmed events :
  Forall (fun msg => msg <> [] /\ strip msg = msg
                     /\ truthy (strip msg) = true)
         (potential_agent_messages (run_events events)).
Proof.
  unfold run_events. rewrite loop_messages. simpl.
  induction (textual_events events) as [|t ts IH]; simpl; [constructor|].
  unfold nonblank at 1, blank.
  rewrite negb_involutive.
  destruct (truthy (strip t)) eqn:T; simpl; [|exact IH].
  constructor; [|exact IH].
  split; [now apply truthy_nonempty|]. split; [apply strip_idem|].
  now rewrite strip_idem.
Qed.

Lemma echoes_are_lines events (u : ui) :
  u ∈ flat_map echoes events -> exists line, u = st_write line.
Proof.
  induction events as [|e events IH]; simpl; [intros Hu; now apply elem_of_nil in Hu|].
  intros [Hu|Hu]%elem_of_app; [|now apply IH].
  unfold echoes in Hu. destruct (ev_tool_calls e) as [calls|];
    [|now apply elem_of_nil in Hu].
  apply list_elem_of_fmap in Hu as (c & -> & _). unfold echo_tool_call. eauto.
Qed.

(** X13. The page of a click ends with the rerun exactly when some event
    carries a tool call, and then it shows neither a report nor the
    fallback; otherwise it ends with the report or the fallback. *)
Theorem page_ends_with_rerun_or_report events :
  last (process_click events)
  = Some (if existsb is_tool_call_event events then st_rerun
          else final_report_display (extract_report events))
  /\ (existsb is_tool_call_event events = true ->
      forall body, (st_success body ∉ process_click events)
                   /\ (st_info body ∉ process_click events)).
Proof.
  rewrite process_click_cases. split.
  - rewrite !app_assoc, last_app.
    destruct (existsb is_tool_call_event events); [reflexivity|].
    cbn [last]. f_equal. rewrite extract_report_spec.
    destruct (spec_final_report events) as [r|] eqn:E; [|reflexivity].
    change (default [] (Some r)) with r. unfold final_report_display.
    now rewrite (spec_final_report_truthy _ _ E).
  - intros -> body.
    split; intros Hu;
      apply elem_of_app in Hu as [Hu|Hu];
      try (apply list_elem_of_singleton in Hu; discriminate);
      apply elem_of_app in Hu as [Hu|Hu];
      try (apply echoes_are_lines in Hu as [line Hu]; discriminate);
      repeat (apply elem_of_cons in Hu as [Hu|Hu]; [discriminate|]);
      now apply elem_of_nil in Hu.
Qed.

End ReportFacts.

(** ** More on the tools and on the body reader *)

Section ToolsAgain.

Lemma relabel_idem (b : ModifyBody) (m : StoredMessage) :
  relabel b (relabel b m) = relabel b m.
Proof. unfold relabel. simpl. f_equal. set_solver. Qed.

Lemma reference_modify_twice (mb : Mailbox) (id : list N)
    (m : StoredMessage) (b : ModifyBody) :
  stored mb !! id = Some m ->
  exists mb1,
    messages_modify reference_service id b mb = (Ret (), mb1)
    /\ messages_modify reference_service id b mb1 = (Ret (), mb1).
Proof.
  intros Hm. rewrite (reference_modify_known _ _ _ _ Hm).
  eexists. split; [reflexivity|].
  erewrite reference_modify_known by (simpl; apply lookup_insert_eq).
  simpl. now rewrite insert_insert_eq, relabel_idem.
Qed.

(** X14. On the reference mailbox, archiving (or deleting) a message a
    second time succeeds like the first time and leaves the mailbox as the
    first call left it. *)
Theorem archive_and_delete_idempotent
    (selected : option (list N)) (mb : Mailbox) (id : list N)
    (m : StoredMessage) :
  id <> [] ->
  stored mb !! id = Some m ->
  let g := {| service := reference_service; CURRENT_EMAIL_ID := selected |} in
  (exists r mb1,
     archive_email_by_id g id mb = (Ret r, mb1)
     /\ archive_email_by_id g id mb1 = (Ret r, mb1)
     /\ status r = success)
  /\ (exists r mb1,
        delete_email_by_id g id mb = (Ret r, mb1)
        /\ delete_email_by_id g id mb1 = (Ret r, mb1)
        /\ status r = success).
Proof.
  intros Hid Hm g. apply truthy_nonempty in Hid. split.
  - destruct (reference_modify_twice mb id m archive_request Hm)
      as (mb1 & E1 & E2).
    eexists _, mb1. rewrite !archive_email_by_id_cases, Hid. cbn [service g].
    rewrite E1, E2. repeat split; reflexivity.
  - destruct (reference_modify_twice mb id m delete_request Hm)
      as (mb1 & E1 & E2).
    eexists _, mb1. rewrite !delete_email_by_id_cases, Hid. cbn [service g].
    rewrite E1, E2. repeat split; reflexivity.
Qed.

(** X15. What [get_email_body] returns is one of the two placeholders or a
    decoded text with no blank at either end, and all it does to the world
    is the one read of the message. *)
Theorem body_is_placeholder_or_trimmed
    {W : Type} `{PyLibs} (g : Globals W) (msg_id : list N) (w : W) :
  exists shown,
    get_email_body g msg_id w
    = (Ret shown, snd (messages_get (service g) msg_id (lit "full") w))
    /\ (shown = no_readable_content
        \/ (exists e, shown = error_reading_body e)
        \/ (strip shown = shown /\ exists d, decode_data d = Ret shown)).
Proof.
  rewrite get_email_body_cases.
  destruct (messages_get _ _ _ w) as [[msg|e] w']; simpl.
  - destruct (select_data (payload msg)) as [[d|]|e];
      try (eexists; split; [reflexivity|]; eauto; fail).
    destruct (truthy d); [|eexists; split; [reflexivity|]; eauto].
    destruct (decode_data d) as [shown|e] eqn:D;
      [|eexists; split; [reflexivity|]; eauto].
    exists shown. split; [reflexivity|]. right. right.
    split; [|eauto]. unfold decode_data, mbind, result_bind in D.
    destruct (urlsafe_b64decode d) as [bs|]; [|discriminate].
    destruct (bytes_decode bs) as [text|]; [|discriminate].
    destruct (soup_get_text text) as [t|]; [|discriminate].
    injection D as <-. apply strip_idem.
  - eexists. split; [reflexivity|]. eauto.
Qed.

End ToolsAgain.

(** ** The further properties at concrete inputs *)

Section MoreExamples.

Example fetch_mini_box :
  fetch_inbox mini_inbox 10 mini_box
  = (Ret {| shown_error := None; fetched := mini_emails |}, mini_box).
Proof. vm_compute. reflexivity. Qed.

Example options_of_mini_emails :
  email_options mini_emails
  = [lit "1. Ann - Lunch..."; lit "2. Ann - Lunch..."].
Proof. vm_compute. reflexivity. Qed.

Example option_of_long_subject :
  email_option 11 {| e_id := lit "m9";
                     e_subject := lit "Quarterly numbers for the northern region";
                     e_sender := lit "  bob@x.com" |}
  = lit "12. bob@x.com - Quarterly numbers for the nort...".
Proof. vm_compute. reflexivity. Qed.

Lemma pick_widgets_ok (k : nat) (refresh process : bool) :
  radio_returns_an_option (pick_widgets k refresh process).
Proof.
  intros options index o. simpl.
  destruct (options !! k) as [o'|] eqn:Ek.
  - intros [= <-]. eapply list_elem_of_lookup_2, Ek.
  - destruct (options !! index) as [o'|] eqn:Ei; [|discriminate].
    intros [= <-]. eapply list_elem_of_lookup_2, Ei.
Qed.

Lemma fetch_inbox_keeps_listing_witness :
  List.map e_id mini_emails = [lit "m1"; lit "m2"]
  /\ length mini_emails = 2%nat.
Proof.
  destruct (fetch_inbox_keeps_listing mini_inbox 10 mini_box
              {| shown_error := None; fetched := mini_emails |} mini_box)
    as (resp & w1 & Hl & Hids & Hlen).
  - vm_compute. reflexivity.
  - reflexivity.
  - vm_compute in Hl. injection Hl as <- _. split; [exact Hids | exact Hlen].
Defined.

Lemma fetch_inbox_one_unreadable_witness :
  exists out w',
    fetch_inbox flaky_inbox 10 () = (Ret out, w')
    /\ fetched out = [] /\ shown_error out <> None.
Proof.
  apply (fetch_inbox_one_unreadable flaky_inbox 10 ()
           {| listed := Some [{| ref_id := lit "m1" |};
                              {| ref_id := lit "m2" |}] |} ()
           {| ref_id := lit "m2" |}).
  - reflexivity.
  - simpl. apply elem_of_cons. right. apply elem_of_cons. now left.
  - intros w. exists not_found, w. vm_compute. reflexivity.
Defined.


Lemma option_index_round_trip_witness :
  list_index (lit "2. Ann - Lunch...") (email_options mini_emails) = Ret 1%nat.
Proof.
  destruct (option_index_round_trip mini_emails 1 (lit "2. Ann - Lunch..."))
    as (_ & Hindex & _).
  - vm_compute. reflexivity.
  - exact Hindex.
Defined.

Lemma selection_stays_in_range_witness :
  session_ok
    (snd (script_runs (H := example_libs) (H0 := mini_runner)
            mini_inbox mini_globals
            [pick_widgets 0 true false; pick_widgets 1 false true]
            (mini_box, fresh_session))).
Proof.
  apply selection_stays_in_range.
  - repeat constructor; apply pick_widgets_ok.
  - left. reflexivity.
Defined.

Lemma sidebar_failure_origin_witness :
  exists options index,
    radio (pick_widgets 7 false false) options index
    = Raise (Error (lit "Radio index out of range")).
Proof.
  apply (sidebar_failure_origin mini_inbox (pick_widgets 7 false false)
           (mini_box, {| emails := mini_emails; selected_email_index := 5 |})).
  - apply pick_widgets_ok.
  - vm_compute. reflexivity.
Defined.


Lemma page_ends_with_rerun_or_report_witness :
  last (process_click events_remark_first) = Some st_rerun
  /\ (st_success (lit "I will archive this email.")
      ∉ process_click events_remark_first).
Proof.
  destruct (page_ends_with_rerun_or_report events_remark_first)
    as [Hlast Hhidden].
  split; [exact Hlast|].
  apply (Hhidden eq_refl (lit "I will archive this email.")).
Defined.

Lemma archive_and_delete_idempotent_witness :
  exists r mb1,
    archive_email_by_id example_globals (lit "m1") mailbox_one = (Ret r, mb1)
    /\ archive_email_by_id example_globals (lit "m1") mb1 = (Ret r, mb1)
    /\ status r = success.
Proof.
  refine (proj1 (archive_and_delete_idempotent (Some (lit "m1")) mailbox_one
                   (lit "m1")
                   {| labelIds := {[ INBOX; lit "UNREAD" ]};
                      resource := simple_message "aGVsbG8=" |} _ _)).
  - intros E. vm_compute in E. discriminate E.
  - apply lookup_singleton_eq.
Defined.

End MoreExamples.
